(** * Vertical composition engine (design.py): model and verified properties

    The development embeds the functions of [design.py] that the
    specification talks about: the crop geometry ([expand_crop_box]), the
    region selection ([pick_primary_crop]), the path escaping and the
    filter-graph synthesis ([escape_for_subtitles], [build_filtergraph]) and
    the batch driver ([main]) together with its helpers [run] and
    [ff_design].

    Modelling conventions.
    - Python [int] is [Z] (unbounded).
    - Python [float] is modelled by exact rational arithmetic ([Q]): the
      rounding of binary64 is not part of the model.  [int(f)] on a float is
      truncation toward zero, [int_of_float] below.
    - Python [str] is [string]; a [Path] is represented by its [str()].
    - The outside world (file system, detector, media probe, rendering
      engine) is a record of oracles, [World]; the driver runs in a small
      trace-and-exception monad. *)

From Stdlib Require Import ZArith QArith Qround List String Ascii Bool Lia.
From Stdlib Require Import DecimalString Lqa Sorted.
Import ListNotations.

Local Open Scope string_scope.
Local Open Scope Z_scope.

(** ** Numbers *)

(** [int(v)] for a float [v]: the integer part, rounding toward zero. *)
Definition int_of_float (v : Q) : Z := Z.quot (Qnum v) (Zpos (Qden v)).

(** [f"{n}"] for an integer [n]: decimal digits, with a leading minus sign
    for a negative number. *)
Definition str_of_int (n : Z) : string := NilZero.string_of_int (Z.to_int n).

(** ** Geometry *)

(** A crop box [(x, y, w, h)]. *)
Definition Box : Type := Z * Z * Z * Z.

Definition expand_crop_box (crop_box : Box) (video_w video_h : Z)
    (expansion_factor : Q) : Box :=
  let '(x, y, w, h) := crop_box in
  (* Calculate center of original crop *)
  let center_x := (inject_Z x + inject_Z w / 2)%Q in
  let center_y := (inject_Z y + inject_Z h / 2)%Q in
  (* Expand dimensions *)
  let new_w := int_of_float (inject_Z w * expansion_factor)%Q in
  let new_h := int_of_float (inject_Z h * expansion_factor)%Q in
  (* Recenter *)
  let new_x := int_of_float (center_x - inject_Z new_w / 2)%Q in
  let new_y := int_of_float (center_y - inject_Z new_h / 2)%Q in
  (* Clamp to video bounds *)
  let new_x := Z.max 0 new_x in
  let new_y := Z.max 0 new_y in
  let new_w := Z.min new_w (video_w - new_x) in
  let new_h := Z.min new_h (video_h - new_y) in
  (new_x, new_y, new_w, new_h).





(** ** Strings *)

(** [s.replace(old, new)] for a non-empty [old]: occurrences are found from
    left to right and do not overlap.  [skip] counts the characters of a
    matched occurrence that are still to be dropped. *)
Fixpoint replace_from (old new : string) (skip : nat) (s : string) : string :=
  match s with
  | EmptyString => EmptyString
  | String c rest =>
      match skip with
      | S k => replace_from old new k rest
      | O =>
          if prefix old s
          then new ++ replace_from old new (String.length old - 1)%nat rest
          else String c (replace_from old new 0 rest)
      end
  end.

Definition replace (old new s : string) : string := replace_from old new 0 s.

(** [sorted(l)] with a strict order [before]: a stable insertion sort; an
    element moves in front of an earlier one only when it is strictly
    [before] it, so equal elements keep their order, as in Python. *)
Fixpoint insert_stable {A : Type} (before : A -> A -> bool) (a : A) (l : list A) : list A :=
  match l with
  | [] => [a]
  | b :: l' => if before b a then b :: insert_stable before a l' else a :: b :: l'
  end.

Definition sorted_stable {A : Type} (before : A -> A -> bool) (l : list A) : list A :=
  fold_right (insert_stable before) [] l.

(** ** Subject-region selection *)

(** [getattr(obj, name, default)]: an attribute that may be missing. *)
Definition getattr {A : Type} (attr : option A) (default : A) : A :=
  match attr with Some v => v | None => default end.

(** One time-ranged region of the detector's answer.  Every attribute is
    read with [getattr(s, name, 0)], so each may be absent. *)
Record Segment : Type := {
  seg_start : option Q;
  seg_end : option Q;
  seg_x : option Q;
  seg_y : option Q;
  seg_w : option Q;
  seg_h : option Q
}.

(** The object returned by [clipsai.resize]; [segments] may be missing. *)
Record Crops : Type := { segments : option (list Segment) }.

(** The sort key [getattr(s, "end", 0) - getattr(s, "start", 0)]. *)
Definition duration (s : Segment) : Q :=
  (getattr (seg_end s) 0%Q - getattr (seg_start s) 0%Q)%Q.

(** [sorted(segs, key=duration, reverse=True)]: descending and stable. *)
Definition longer_first (b a : Segment) : bool :=
  negb (Qle_bool (duration b) (duration a)).

Definition segment_box (s : Segment) : Box :=
  (int_of_float (getattr (seg_x s) 0%Q), int_of_float (getattr (seg_y s) 0%Q),
   int_of_float (getattr (seg_w s) 0%Q), int_of_float (getattr (seg_h s) 0%Q)).

(** [segs[0]] after the sort. *)
Definition primary_segment (segs : list Segment) : option Segment :=
  hd_error (sorted_stable longer_first segs).

Definition pick_primary_crop (crops_obj : Crops) : option Box :=
  match segments crops_obj with
  | None => None
  | Some [] => None
  | Some segs =>
      match sorted_stable longer_first segs with
      | [] => None
      | s :: _ =>
          let '(x, y, w, h) := segment_box s in
          if 0 <? Z.min w h then Some (x, y, w, h) else None
      end
  end.

(** The regions of a set are in chronological order: no region starts
    before an earlier one of the sequence. *)
Definition chronological (segs : list Segment) : Prop :=
  StronglySorted
    (fun a b => (getattr (seg_start a) 0%Q <= getattr (seg_start b) 0%Q)%Q) segs.

(** What [pick_primary_crop] returns for the selected region. *)
Definition box_if_positive (s : Segment) : option Box :=
  let '(x, y, w, h) := segment_box s in
  if 0 <? Z.min w h then Some (x, y, w, h) else None.

(** ** Filter graph *)

Definition CAPTION_FONT : string := "DejaVu Sans".

Definition CAPTION_STYLE : string :=
  "FontName=" ++ CAPTION_FONT ++ "," ++
  "FontSize=13," ++
  "PrimaryColour=&H00FFFFFF&," ++
  "BackColour=&H80000000&," ++
  "Outline=0," ++
  "Shadow=0," ++
  "BorderStyle=3," ++
  "Alignment=2," ++
  "MarginV=120," ++
  "Bold=1," ++
  "WrapStyle=2".

Definition escape_for_subtitles (path : string) : string :=
  replace "'" "\'" (replace "," "\," (replace ":" "\:" (replace "\" "\\" path))).

(** Background: scale-to-cover, blur, crop. *)
Definition background_part (out_w out_h : Z) : string :=
  "[0:v]" ++
  "scale='if(gte(iw/ih," ++ str_of_int out_w ++ "/" ++ str_of_int out_h ++ "),-1,"
    ++ str_of_int out_w ++ ")'" ++
  ":'if(gte(iw/ih," ++ str_of_int out_w ++ "/" ++ str_of_int out_h ++ "),"
    ++ str_of_int out_h ++ ",-1)'," ++
  "boxblur=24:1," ++
  "crop=" ++ str_of_int out_w ++ ":" ++ str_of_int out_h ++ "[bg]".

(** Foreground, smart crop: [f"[0:v]crop={w}:{h}:{x}:{y}[fg]"]. *)
Definition smart_crop_part (crop_box : Box) : string :=
  let '(x, y, w, h) := crop_box in
  "[0:v]crop=" ++ str_of_int w ++ ":" ++ str_of_int h ++ ":" ++ str_of_int x ++ ":"
    ++ str_of_int y ++ "[fg]".

(** Foreground, centered 9:16 crop. *)
Definition center_crop_part : string :=
  "[0:v]" ++
  "crop=" ++
  "iw*min(1.0\,ih/iw*9/16):" ++
  "ih*min(1.0\,iw/ih*16/9):" ++
  "(iw - iw*min(1.0\,ih/iw*9/16))/2:" ++
  "(ih - ih*min(1.0\,iw/ih*16/9))/2[fg]".

(** The test [crop_box and all(v > 0 for v in crop_box)]. *)
Definition use_smart_crop (crop_box : option Box) : bool :=
  match crop_box with
  | None => false
  | Some (x, y, w, h) => forallb (fun v => 0 <? v) [x; y; w; h]
  end.

Definition foreground_part (crop_box : option Box) : string :=
  match crop_box with
  | Some box => if use_smart_crop crop_box then smart_crop_part box else center_crop_part
  | None => center_crop_part
  end.

Definition fit_part (out_w out_h : Z) : string :=
  "[fg]scale=" ++ str_of_int out_w ++ ":" ++ str_of_int out_h
    ++ ":force_original_aspect_ratio=decrease[fgs]".

Definition composite_part : string := "[bg][fgs]overlay=(W-w)/2:(H-h)/2[base]".

Definition subtitles_part (base_label srt_path : string) : string :=
  let style_escaped := replace "," "\," CAPTION_STYLE in
  let srt_escaped := escape_for_subtitles srt_path in
  base_label ++ "subtitles='" ++ srt_escaped ++ "':force_style='" ++ style_escaped ++ "'[base2]".

Definition template_part (base_label : string) : string :=
  base_label ++ "[1:v]overlay=0:0[outv]".

(** The list [parts] at the end of [build_filtergraph]. *)
Definition filtergraph_parts (crop_box : option Box) (out_w out_h : Z)
    (srt_path : option string) : list string :=
  let parts := [background_part out_w out_h] in
  let parts := (parts ++ [foreground_part crop_box])%list in
  let parts := (parts ++ [fit_part out_w out_h])%list in
  let parts := (parts ++ [composite_part])%list in
  let base_label := "[base]" in
  let '(parts, base_label) :=
    match srt_path with
    | Some srt => ((parts ++ [subtitles_part base_label srt])%list, "[base2]")
    | None => (parts, base_label)
    end in
  (parts ++ [template_part base_label])%list.

Definition build_filtergraph (crop_box : option Box) (out_w out_h : Z)
    (srt_path : option string) : string :=
  String.concat "," (filtergraph_parts crop_box out_w out_h srt_path).

(** The stream a part produces: its text from the last opening bracket. *)
Fixpoint output_label (part : string) : string :=
  match part with
  | EmptyString => EmptyString
  | String c rest =>
      let l := output_label rest in
      if (l =? "")%string
      then (if (c =? "[")%char then part else EmptyString)
      else l
  end.







(** Escaping in one pass: every character of the path is looked at once and
    the four special characters get one backslash in front. *)
Definition escape_char (c : ascii) : string :=
  if (c =? "\")%char then "\\"
  else if (c =? ":")%char then "\:"
  else if (c =? ",")%char then "\,"
  else if (c =? "'")%char then "\'"
  else String c EmptyString.

Fixpoint escape_each (s : string) : string :=
  match s with
  | EmptyString => EmptyString
  | String c rest => escape_char c ++ escape_each rest
  end.

(** No comma of [s] is left without a backslash in front of it. *)
Fixpoint commas_escaped_from (previous : ascii) (s : string) : bool :=
  match s with
  | EmptyString => true
  | String c rest =>
      (negb (c =? ",")%char || (previous =? "\")%char) && commas_escaped_from c rest
  end.

Definition commas_escaped (s : string) : bool := commas_escaped_from " "%char s.

(** Removing the backslash in front of each comma. *)
Fixpoint unescape_commas (s : string) : string :=
  match s with
  | EmptyString => EmptyString
  | String c rest =>
      if ((c =? "\")%char && prefix "," rest)%bool then unescape_commas rest
      else String c (unescape_commas rest)
  end.

(** ** Paths and clips *)

(** [Path(dir) / name], as a string. *)
Definition path_join (dir name : string) : string := dir ++ "/" ++ name.

(** A clip found by [in_dir.glob("clip_*.mp4")]: its directory and its stem;
    the suffix is [.mp4] by the pattern. *)
Record Clip : Type := { clip_dir : string; clip_stem : string }.

Definition clip_name (clip : Clip) : string := clip_stem clip ++ ".mp4".
Definition clip_path (clip : Clip) : string := path_join (clip_dir clip) (clip_name clip).

(** [clip.with_suffix(".srt")]. *)
Definition clip_with_suffix_srt (clip : Clip) : string :=
  path_join (clip_dir clip) (clip_stem clip ++ ".srt").

(** [sorted(paths)]: the clips share their directory, so the order is the
    order of the file names. *)
Definition name_before (b a : Clip) : bool := String.ltb (clip_name b) (clip_name a).

(** ** The driver's effects *)

Inductive Exn : Type :=
| FileNotFoundError (path : string)
| CalledProcessError (returncode : Z) (cmd : list string)
| OtherException (details : string).

Inductive Outcome (A : Type) : Type :=
| Returned (a : A)
| Raised (e : Exn).
Arguments Returned {A} a.
Arguments Raised {A} e.

(** The lines the driver prints; one constructor per [print] of the source. *)
Inductive Msg : Type :=
| Echo (cmd : list string)                       (* run: the echoed command *)
| InfoNoClips (in_dir : string)                  (* [info] No clips found in ... *)
| Designing (name : string)                      (* === Designing ... === *)
| WarnSubsFileNotFound                           (* [warn] --subs_file not found ... *)
| InfoSmartCropDisabled                          (* [info] Smart crop disabled ... *)
| InfoExpanded (original_box new_box : Box) (factor : Q)
| InfoTokenMissing                               (* [info] PYANNOTE token missing ... *)
| WarnResizeFailed (e : Exn)                     (* [warn] resize() failed; using center crop *)
| AllDesigned.                                   (* All clips designed. *)

(** What the driver does to the world, in the order it does it. *)
Inductive Event : Type :=
| Printed (m : Msg)
| Mkdir (dir : string)
| Resized (video_file_path : string)             (* a call of clipsai.resize *)
| Probed (video_path : string)                   (* a call of ffprobe *)
| Ran (cmd : list string) (returncode : Z).      (* subprocess.run(cmd, check=True) *)

(** The collaborators, as oracles. *)
Record World : Type := {
  path_exists : string -> bool;                  (* Path(p).exists() *)
  glob_clips : string -> list string;            (* stems of in_dir.glob("clip_*.mp4") *)
  resize : string -> string -> Outcome Crops;    (* clipsai.resize(path, token, (9, 16)) *)
  video_dimensions : string -> Outcome (Z * Z);  (* ffprobe's answer, parsed *)
  exit_status : list string -> Z                 (* exit status of the command *)
}.

(** The parsed command line. *)
Inductive SubsMode : Type := subs_off | subs_auto | subs_file_mode.

Record Args : Type := {
  input_dir : string;
  output_dir : string;
  template : string;
  width : Z;
  height : Z;
  pyannote_token : string;
  crop_expansion : Q;
  disable_smart_crop : bool;
  subs_mode : SubsMode;
  subs_dir : string;
  subs_file : string
}.

(** The interpreter state: everything done so far, and the local variable
    [crop_box] of the loop body, which is assigned inside a [try] block and
    keeps its last value when the block raises. *)
Record State : Type := { trace : list Event; crop_box_var : option Box }.

Definition M (A : Type) : Type := State -> State * Outcome A.

Definition ret {A : Type} (a : A) : M A := fun s => (s, Returned a).

Definition bind {A B : Type} (m : M A) (k : A -> M B) : M B :=
  fun s =>
    match m s with
    | (s', Returned a) => k a s'
    | (s', Raised e) => (s', Raised e)
    end.

Definition raise {A : Type} (e : Exn) : M A := fun s => (s, Raised e).

(** [try: m except Exception as e: handler e]. *)
Definition try_except {A : Type} (m : M A) (handler : Exn -> M A) : M A :=
  fun s =>
    match m s with
    | (s', Returned a) => (s', Returned a)
    | (s', Raised e) => handler e s'
    end.

Definition emit (ev : Event) : M unit :=
  fun s => ({| trace := (trace s ++ [ev])%list; crop_box_var := crop_box_var s |}, Returned tt).

Definition print (m : Msg) : M unit := emit (Printed m).

Definition get_crop_box : M (option Box) := fun s => (s, Returned (crop_box_var s)).

Definition set_crop_box (b : option Box) : M unit :=
  fun s => ({| trace := trace s; crop_box_var := b |}, Returned tt).

(** The result of a call to a collaborator. *)
Definition lift {A : Type} (o : Outcome A) : M A :=
  match o with Returned a => ret a | Raised e => raise e end.

Declare Scope driver_scope.
Delimit Scope driver_scope with driver.
Notation "x <- m ;; k" := (bind m (fun x => k))
  (at level 100, m at next level, right associativity) : driver_scope.
Notation "m ;; k" := (bind m (fun _ => k))
  (at level 100, right associativity) : driver_scope.

(** [for a in l: body a]. *)
Fixpoint for_each {A : Type} (l : list A) (body : A -> M unit) : M unit :=
  match l with
  | [] => ret tt
  | a :: l' => bind (body a) (fun _ => for_each l' body)
  end.

Local Open Scope driver_scope.

Definition run (w : World) (cmd : list string) : M unit :=
  print (Echo cmd) ;;
  let rc := exit_status w cmd in
  emit (Ran cmd rc) ;;
  if rc =? 0 then ret tt else raise (CalledProcessError rc cmd).

Definition get_video_dimensions (w : World) (video_path : string) : M (Z * Z) :=
  emit (Probed video_path) ;;
  lift (video_dimensions w video_path).

Definition ffmpeg_cmd (src dst overlay_png vf : string) : list string :=
  [ "ffmpeg"; "-y";
    "-i"; src;
    "-i"; overlay_png;
    "-filter_complex"; vf;
    "-map"; "[outv]";
    "-map"; "0:a?";
    "-c:v"; "libx264"; "-preset"; "veryfast"; "-crf"; "18";
    "-c:a"; "copy";
    dst ].

Definition ff_design (w : World) (src dst overlay_png : string)
    (crop_box : option Box) (out_w out_h : Z) (srt_path : option string) : M unit :=
  let vf := build_filtergraph crop_box out_w out_h srt_path in
  run w (ffmpeg_cmd src dst overlay_png vf).

(** A non-empty string is true. *)
Definition truthy (s : string) : bool := negb (s =? "")%string.

(** [main], "Decide subtitles path". *)
Definition decide_subtitles (w : World) (args : Args) (clip : Clip) : M (option string) :=
  match subs_mode args with
  | subs_file_mode =>
      if truthy (subs_file args) then
        let srt := if path_exists w (subs_file args) then Some (subs_file args) else None in
        match srt with
        | None => print WarnSubsFileNotFound ;; ret srt
        | Some _ => ret srt
        end
      else ret None
  | subs_auto =>
      (* Prefer SRT next to the clip; otherwise look in subs_dir *)
      let srt1 := clip_with_suffix_srt clip in
      let srt2 := path_join (subs_dir args) (clip_stem clip ++ ".srt") in
      ret (if path_exists w srt1 then Some srt1
           else if path_exists w srt2 then Some srt2 else None)
  | subs_off => ret None
  end.

(** [main], "Smart crop (pyannote) or fallback to center crop": leaves its
    result in the variable [crop_box]. *)
Definition smart_crop (w : World) (args : Args) (clip : Clip) : M unit :=
  set_crop_box None ;;
  if disable_smart_crop args then print InfoSmartCropDisabled
  else
    try_except
      (if truthy (pyannote_token args) then
         emit (Resized (clip_path clip)) ;;
         crops <- lift (resize w (clip_path clip) (pyannote_token args)) ;;
         set_crop_box (pick_primary_crop crops) ;;
         crop_box <- get_crop_box ;;
         match crop_box with
         | Some original_box =>
             if negb (Qeq_bool (crop_expansion args) 1) then
               dims <- get_video_dimensions w (clip_path clip) ;;
               let '(video_w, video_h) := dims in
               let new_box := expand_crop_box original_box video_w video_h (crop_expansion args) in
               set_crop_box (Some new_box) ;;
               print (InfoExpanded original_box new_box (crop_expansion args))
             else ret tt
         | None => ret tt
         end
       else print InfoTokenMissing)
      (fun e => print (WarnResizeFailed e)).

(** The destination of a clip. *)
Definition destination (args : Args) (clip : Clip) : string :=
  path_join (output_dir args) (replace "_subtitled" "" (clip_stem clip) ++ "_vertical.mp4").

(** The body of the loop of [main]. *)
Definition design_clip (w : World) (args : Args) (clip : Clip) : M unit :=
  print (Designing (clip_name clip)) ;;
  srt <- decide_subtitles w args clip ;;
  smart_crop w args clip ;;
  let dst := destination args clip in
  crop_box <- get_crop_box ;;
  ff_design w (clip_path clip) dst (template args) crop_box (width args) (height args) srt.

Definition sorted_inputs (w : World) (args : Args) : list Clip :=
  sorted_stable name_before
    (map (fun stem => {| clip_dir := input_dir args; clip_stem := stem |})
         (glob_clips w (input_dir args))).

Definition main (w : World) (args : Args) : M unit :=
  emit (Mkdir (output_dir args)) ;;
  if negb (path_exists w (template args)) then raise (FileNotFoundError (template args))
  else
    let inputs := sorted_inputs w args in
    match inputs with
    | [] => print (InfoNoClips (input_dir args))
    | _ =>
        for_each inputs (design_clip w args) ;;
        print AllDesigned
    end.

Definition initial_state : State := {| trace := []; crop_box_var := None |}.

(** The rendering commands that were run, with their exit status. *)
Fixpoint renders (t : list Event) : list (list string * Z) :=
  match t with
  | [] => []
  | Ran cmd rc :: t' => (cmd, rc) :: renders t'
  | _ :: t' => renders t'
  end.

Local Close Scope driver_scope.

(** ** Derived descriptions of one iteration

    These restate, as plain functions of the clip, what the loop body
    computes; they are proved equal to the driver's behaviour below. *)

(** The subtitle path chosen for a clip. *)
Definition resolved_srt (w : World) (args : Args) (clip : Clip) : option string :=
  match subs_mode args with
  | subs_off => None
  | subs_file_mode =>
      if truthy (subs_file args) && path_exists w (subs_file args)
      then Some (subs_file args) else None
  | subs_auto =>
      if path_exists w (clip_with_suffix_srt clip) then Some (clip_with_suffix_srt clip)
      else if path_exists w (path_join (subs_dir args) (clip_stem clip ++ ".srt"))
      then Some (path_join (subs_dir args) (clip_stem clip ++ ".srt"))
      else None
  end.

(** The value of [crop_box] when the smart-crop block is left. *)
Definition resolved_crop (w : World) (args : Args) (clip : Clip) : option Box :=
  if disable_smart_crop args then None
  else if truthy (pyannote_token args) then
    match resize w (clip_path clip) (pyannote_token args) with
    | Raised _ => None
    | Returned crops =>
        match pick_primary_crop crops with
        | None => None
        | Some original_box =>
            if negb (Qeq_bool (crop_expansion args) 1) then
              match video_dimensions w (clip_path clip) with
              | Returned (video_w, video_h) =>
                  Some (expand_crop_box original_box video_w video_h (crop_expansion args))
              | Raised _ => Some original_box
              end
            else Some original_box
        end
    end
  else None.

(** The command with which a clip is rendered. *)
Definition render_cmd (w : World) (args : Args) (clip : Clip) : list string :=
  ffmpeg_cmd (clip_path clip) (destination args clip) (template args)
    (build_filtergraph (resolved_crop w args clip) (width args) (height args)
       (resolved_srt w args clip)).

(** Everything one iteration does, in order. *)
Definition clip_events (w : World) (args : Args) (clip : Clip) : list Event :=
  trace (fst (design_clip w args clip initial_state)).

(** How one iteration ends. *)
Definition clip_outcome (w : World) (args : Args) (clip : Clip) : Outcome unit :=
  let cmd := render_cmd w args clip in
  if exit_status w cmd =? 0 then Returned tt
  else Raised (CalledProcessError (exit_status w cmd) cmd).

(** The clips whose iteration was entered: the names announced. *)
Fixpoint started (t : list Event) : list string :=
  match t with
  | [] => []
  | Printed (Designing name) :: t' => name :: started t'
  | _ :: t' => started t'
  end.

(** Events that neither render nor enter an iteration. *)
Definition quiet (t : list Event) : Prop := renders t = [] /\ started t = [].

(** The destinations written so far: the last argument of every rendering
    command that exited with status 0. *)
Definition outputs_written (t : list Event) : list string :=
  map (fun r => last (fst r) "") (filter (fun r => snd r =? 0) (renders t)).

(** ** Scenarios

    Concrete batches on which the driver is run in the examples below. *)

Definition demo_args_with (mode : SubsMode) (file : string) : Args := {|
  input_dir := "clips";
  output_dir := "designed";
  template := "templates/emigr8_vertical.png";
  width := 1080;
  height := 1920;
  pyannote_token := "token";
  crop_expansion := 3;
  disable_smart_crop := false;
  subs_mode := mode;
  subs_dir := "subtitles";
  subs_file := file
|}.

Definition demo_args : Args := demo_args_with subs_off "".

Definition demo_segment : Segment := {|
  seg_start := Some 0%Q; seg_end := Some 5%Q;
  seg_x := Some 800%Q; seg_y := Some 400%Q; seg_w := Some 100%Q; seg_h := Some 100%Q
|}.

Definition demo_clip (stem : string) : Clip := {| clip_dir := "clips"; clip_stem := stem |}.

(** Three clips; the detector raises on the second one. *)
Definition detection_fails_world : World := {|
  path_exists := fun _ => true;
  glob_clips := fun _ => ["clip_2"; "clip_3"; "clip_1"];
  resize := fun path _ =>
    if (path =? "clips/clip_2.mp4")%string
    then Raised (OtherException "no speaker found")
    else Returned {| segments := Some [demo_segment] |};
  video_dimensions := fun _ => Returned (1920, 1080);
  exit_status := fun _ => 0
|}.

(** Three clips; the rendering engine fails on the second one. *)
Definition render_fails_world : World := {|
  path_exists := fun _ => true;
  glob_clips := fun _ => ["clip_2"; "clip_3"; "clip_1"];
  resize := fun _ _ => Returned {| segments := Some [demo_segment] |};
  video_dimensions := fun _ => Returned (1920, 1080);
  exit_status := fun cmd => if (nth 3 cmd "" =? "clips/clip_2.mp4")%string then 1 else 0
|}.

(** One clip; the detector returns a region of width zero. *)
Definition degenerate_segment : Segment := {|
  seg_start := Some 0%Q; seg_end := Some 4%Q;
  seg_x := Some 10%Q; seg_y := Some 20%Q; seg_w := Some 0%Q; seg_h := Some 300%Q
|}.

Definition degenerate_world : World := {|
  path_exists := fun _ => true;
  glob_clips := fun _ => ["clip_1"];
  resize := fun _ _ => Returned {| segments := Some [degenerate_segment] |};
  video_dimensions := fun _ => Returned (1920, 1080);
  exit_status := fun _ => 0
|}.

(** A file system that holds the template and nothing else. *)
Definition no_subtitles_world : World := {|
  path_exists := fun p => (p =? "templates/emigr8_vertical.png")%string;
  glob_clips := fun _ => ["clip_1"];
  resize := fun _ _ => Returned {| segments := Some [demo_segment] |};
  video_dimensions := fun _ => Returned (1920, 1080);
  exit_status := fun _ => 0
|}.

(** Regions in chronological order; the first two last equally long. *)
Definition region (start_ end_ x : Q) : Segment := {|
  seg_start := Some start_; seg_end := Some end_;
  seg_x := Some x; seg_y := Some 40%Q; seg_w := Some 300%Q; seg_h := Some 500%Q
|}.

Definition tie_segments : list Segment :=
  [region 0 5 100; region 5 10 200; region 10 12 300].

(** ** Further descriptions used by the properties of the second part *)

(** Reading an escaped path back: a backslash makes the next character
    literal. *)
Fixpoint unescape_from (escaped : bool) (s : string) : string :=
  match s with
  | EmptyString => EmptyString
  | String c rest =>
      if escaped then String c (unescape_from false rest)
      else if (c =? "\")%char then unescape_from true rest
      else String c (unescape_from false rest)
  end.

Definition unescape (s : string) : string := unescape_from false s.

(** No colon, comma or single quote of [s] stands without a backslash in
    front of it, and no backslash is left dangling at the end. *)
Fixpoint no_bare_special_from (escaped : bool) (s : string) : bool :=
  match s with
  | EmptyString => negb escaped
  | String c rest =>
      if escaped then no_bare_special_from false rest
      else if (c =? "\")%char then no_bare_special_from true rest
      else negb ((c =? ":")%char || (c =? ",")%char || (c =? "'")%char)
           && no_bare_special_from false rest
  end.

Definition no_bare_special (s : string) : bool := no_bare_special_from false s.

(** The streams a part reads: the bracketed labels it starts with. *)
Fixpoint leading_labels (current : option string) (s : string) : list string :=
  match s with
  | EmptyString => []
  | String c rest =>
      match current with
      | None =>
          if (c =? "[")%char then leading_labels (Some "[") rest else []
      | Some label =>
          if (c =? "]")%char then (label ++ "]") :: leading_labels None rest
          else leading_labels (Some (label ++ String c EmptyString)) rest
      end
  end.

Definition input_labels (part : string) : list string := leading_labels None part.

(** The two primary inputs of the rendering command: the clip and the
    overlay image. *)
Definition primary_inputs : list string := ["[0:v]"; "[1:v]"].

Definition mem_string (s : string) (l : list string) : bool :=
  existsb (fun t => (s =? t)%string) l.

(** A graph is well wired when every part reads only primary inputs and
    streams produced by earlier parts, and produces a stream that is not
    available yet. *)
Fixpoint well_wired_from (available : list string) (parts : list string) : bool :=
  match parts with
  | [] => true
  | p :: rest =>
      forallb (fun l => mem_string l available) (input_labels p)
      && negb (mem_string (output_label p) available)
      && well_wired_from (output_label p :: available) rest
  end.

Definition well_wired (parts : list string) : bool :=
  well_wired_from primary_inputs parts.

(** Every stream but that of the last part is read by a later part. *)
Fixpoint no_dangling (parts : list string) : bool :=
  match parts with
  | [] => true
  | p :: rest =>
      match rest with
      | [] => true
      | _ => existsb (fun q => mem_string (output_label p) (input_labels q)) rest
             && no_dangling rest
      end
  end.

(** The events of the subtitle block of [main] for a clip. *)
Definition srt_events (w : World) (args : Args) (clip : Clip) : list Event :=
  match subs_mode args with
  | subs_file_mode =>
      if truthy (subs_file args) && negb (path_exists w (subs_file args))
      then [Printed WarnSubsFileNotFound] else []
  | _ => []
  end.

(** The events of the smart-crop block of [main] for a clip. *)
Definition smart_crop_events (w : World) (args : Args) (clip : Clip) : list Event :=
  if disable_smart_crop args then [Printed InfoSmartCropDisabled]
  else if truthy (pyannote_token args) then
    Resized (clip_path clip) ::
    match resize w (clip_path clip) (pyannote_token args) with
    | Raised e => [Printed (WarnResizeFailed e)]
    | Returned crops =>
        match pick_primary_crop crops with
        | None => []
        | Some original_box =>
            if negb (Qeq_bool (crop_expansion args) 1) then
              Probed (clip_path clip) ::
              match video_dimensions w (clip_path clip) with
              | Returned (video_w, video_h) =>
                  [Printed (InfoExpanded original_box
                              (expand_crop_box original_box video_w video_h
                                 (crop_expansion args))
                              (crop_expansion args))]
              | Raised e => [Printed (WarnResizeFailed e)]
              end
            else []
        end
    end
  else [Printed InfoTokenMissing].

(** The clips of a batch up to and including the first one whose rendering
    fails. *)
Fixpoint attempted (w : World) (args : Args) (clips : list Clip) : list Clip :=
  match clips with
  | [] => []
  | c :: rest =>
      if exit_status w (render_cmd w args c) =? 0
      then c :: attempted w args rest else [c]
  end.

(** The calls made to the detector and to the media probe. *)
Fixpoint detector_calls (t : list Event) : list string :=
  match t with
  | [] => []
  | Resized p :: t' => p :: detector_calls t'
  | _ :: t' => detector_calls t'
  end.

Fixpoint probe_calls (t : list Event) : list string :=
  match t with
  | [] => []
  | Probed p :: t' => p :: probe_calls t'
  | _ :: t' => probe_calls t'
  end.

(** How the loop over a batch ends: normally, or with the error of the
    first rendering command that fails. *)
Fixpoint batch_outcome (w : World) (args : Args) (clips : list Clip) : Outcome unit :=
  match clips with
  | [] => Returned tt
  | c :: rest =>
      if exit_status w (render_cmd w args c) =? 0
      then batch_outcome w args rest
      else Raised (CalledProcessError (exit_status w (render_cmd w args c))
                     (render_cmd w args c))
  end.

(** The detector is consulted for a clip. *)
Definition detection_enabled (args : Args) : bool :=
  negb (disable_smart_crop args) && truthy (pyannote_token args).


(** ** subtitles.py: the SRT timestamp *)

(** [a // b] and [a % b] on floats, for exact arithmetic: the floor of the
    quotient, and the remainder that goes with it. *)
Definition floordiv (a b : Q) : Q := inject_Z (Qfloor (a / b)).

Definition float_mod (a b : Q) : Q := (a - b * inject_Z (Qfloor (a / b)))%Q.

Fixpoint zeros (n : nat) : string :=
  match n with
  | O => EmptyString
  | S k => String "0" (zeros k)
  end.

(** [f"{n:0<width>}"] for an integer: zeros are put between the sign and
    the digits until the text is [width] characters long. *)
Definition zero_pad (width : nat) (n : Z) : string :=
  let digits := str_of_int (Z.abs n) in
  let sign := if n <? 0 then "-" else "" in
  sign ++ zeros (width - String.length sign - String.length digits) ++ digits.

Definition format_time (t : Q) : string :=
  let hrs := int_of_float (floordiv t 3600) in
  let mins := int_of_float (floordiv (float_mod t 3600) 60) in
  let secs := int_of_float (float_mod t 60) in
  let ms := int_of_float (float_mod (t * 1000) 1000) in
  zero_pad 2 hrs ++ ":" ++ zero_pad 2 mins ++ ":" ++ zero_pad 2 secs ++ "," ++ zero_pad 3 ms.

(** A decimal digit. *)
Definition is_digit (c : ascii) : bool :=
  (48 <=? nat_of_ascii c)%nat && (nat_of_ascii c <=? 57)%nat.

(** The text is exactly [width] digits. *)
Fixpoint all_digits (width : nat) (s : string) : bool :=
  match width, s with
  | O, EmptyString => true
  | S k, String c rest => is_digit c && all_digits k rest
  | _, _ => false
  end.

(** ** app.py: the cleanup endpoint *)

(** The four processing directories: [CLIPS_DIR], [SUBTITLED_DIR],
    [DESIGNED_DIR] and [VIDEOS_DIR]. *)
Inductive Store : Type := ClipsDir | SubtitledDir | DesignedDir | VideosDir.

Definition Store_eqb (a b : Store) : bool :=
  match a, b with
  | ClipsDir, ClipsDir | SubtitledDir, SubtitledDir
  | DesignedDir, DesignedDir | VideosDir, VideosDir => true
  | _, _ => false
  end.

(** [directory_map.get(dir_name)]. *)
Definition directory_map (dir_name : string) : option Store :=
  if (dir_name =? "clips")%string then Some ClipsDir
  else if (dir_name =? "subtitled")%string then Some SubtitledDir
  else if (dir_name =? "designed")%string then Some DesignedDir
  else if (dir_name =? "videos")%string then Some VideosDir
  else None.

(** What [directory.glob("*")] yields: the entries of a directory, each a
    regular file or not ([is_file()]). *)
Record DirEntry : Type := { entry_name : string; entry_is_file : bool }.

(** The contents of the four directories. *)
Definition Files : Type := Store -> list DirEntry.

(** [file_path.unlink()]: the entry of that name leaves its directory. *)
Definition unlink (fs : Files) (directory : Store) (name : string) : Files :=
  fun d =>
    if Store_eqb directory d
    then filter (fun e => negb (entry_name e =? name)%string) (fs d)
    else fs d.

(** [cleaned[dir_name] = files_removed] on a dict, which keeps the place of
    a key it already holds. *)
Fixpoint dict_set (k : string) (v : Z) (d : list (string * Z)) : list (string * Z) :=
  match d with
  | [] => [(k, v)]
  | (k', v') :: rest =>
      if (k =? k')%string then (k, v) :: rest else (k', v') :: dict_set k v rest
  end.

(** [sum(cleaned.values())]. *)
Definition dict_sum (d : list (string * Z)) : Z := fold_right Z.add 0 (map snd d).

(** The inner loop of [cleanup] over the entries found in a directory;
    [unlink_error] tells for which files [unlink] raises, and with what
    message. *)
Fixpoint unlink_files (unlink_error : Store -> string -> option string)
    (directory : Store) (entries : list DirEntry) (fs : Files) (files_removed : Z)
    : Files * (string + Z) :=
  match entries with
  | [] => (fs, inr files_removed)
  | file_path :: rest =>
      if entry_is_file file_path then
        match unlink_error directory (entry_name file_path) with
        | Some err => (fs, inl err)
        | None =>
            unlink_files unlink_error directory rest
              (unlink fs directory (entry_name file_path)) (files_removed + 1)
        end
      else unlink_files unlink_error directory rest fs files_removed
  end.

(** The loop of [cleanup] over the directory names of the request. *)
Fixpoint cleanup_loop (unlink_error : Store -> string -> option string)
    (directories : list string) (fs : Files) (cleaned : list (string * Z))
    : Files * (string + list (string * Z)) :=
  match directories with
  | [] => (fs, inr cleaned)
  | dir_name :: rest =>
      match directory_map dir_name with
      | Some directory =>
          match unlink_files unlink_error directory (fs directory) fs 0 with
          | (fs', inr files_removed) =>
              cleanup_loop unlink_error rest fs' (dict_set dir_name files_removed cleaned)
          | (fs', inl err) => (fs', inl err)
          end
      | None => cleanup_loop unlink_error rest fs cleaned
      end
  end.

(** The two answers of the endpoint: 200 with the report, or 500 with the
    text of the exception. *)
Inductive CleanupResponse : Type :=
| CleanupSuccess (cleaned : list (string * Z)) (message : string)
| CleanupError (error : string).

(** [data.get('directories', [...])]: [request] is the list under the key
    ["directories"] of the request body, [None] when the key or the body is
    missing. *)
Definition directories_of (request : option (list string)) : list string :=
  match request with
  | Some l => l
  | None => ["clips"; "subtitled"; "designed"; "videos"]
  end.

(** [cleanup()]. *)
Definition cleanup (unlink_error : Store -> string -> option string)
    (request : option (list string)) (fs : Files) : Files * CleanupResponse :=
  let directories := directories_of request in
  match cleanup_loop unlink_error directories fs [] with
  | (fs', inr cleaned) =>
      (fs', CleanupSuccess cleaned ("Cleaned " ++ str_of_int (dict_sum cleaned) ++ " files"))
  | (fs', inl err) => (fs', CleanupError err)
  end.

(** A directory never holds two entries of the same name. *)
Definition well_formed (fs : Files) : Prop :=
  forall d, NoDup (map entry_name (fs d)).

(** The directory is named by the request. *)
Definition requested (directories : list string) (d : Store) : bool :=
  existsb (fun dir_name =>
             match directory_map dir_name with
             | Some d' => Store_eqb d' d
             | None => false
             end) directories.

Definition not_a_file (e : DirEntry) : bool := negb (entry_is_file e).

Definition count_files (entries : list DirEntry) : Z :=
  Z.of_nat (List.length (filter entry_is_file entries)).

(** The report the endpoint gives when every name is listed once: each
    known name with the number of regular files its directory held. *)
Definition cleanup_report (fs : Files) (directories : list string) : list (string * Z) :=
  flat_map (fun dir_name =>
              match directory_map dir_name with
              | Some d => [(dir_name, count_files (fs d))]
              | None => []
              end) directories.

(** The number of regular files in the directories named by a request. *)
Definition requested_files (fs : Files) (directories : list string) : Z :=
  (if requested directories ClipsDir then count_files (fs ClipsDir) else 0)
  + (if requested directories SubtitledDir then count_files (fs SubtitledDir) else 0)
  + (if requested directories DesignedDir then count_files (fs DesignedDir) else 0)
  + (if requested directories VideosDir then count_files (fs VideosDir) else 0).

(** The number of entries in the four directories together. *)
Definition total_entries (fs : Files) : Z :=
  Z.of_nat (List.length (fs ClipsDir)) + Z.of_nat (List.length (fs SubtitledDir))
  + Z.of_nat (List.length (fs DesignedDir)) + Z.of_nat (List.length (fs VideosDir)).

(** A sample state of the directories. *)
Definition sample_files : Files :=
  fun d =>
    match d with
    | ClipsDir => [ {| entry_name := "clip_1.mp4"; entry_is_file := true |};
                    {| entry_name := "old"; entry_is_file := false |};
                    {| entry_name := "clip_2.mp4"; entry_is_file := true |} ]
    | SubtitledDir => [ {| entry_name := "clip_1.srt"; entry_is_file := true |} ]
    | DesignedDir => [ {| entry_name := "clip_1_vertical.mp4"; entry_is_file := true |} ]
    | VideosDir => [ {| entry_name := "input.mp4"; entry_is_file := true |} ]
    end.

(** * Properties *)

(** ** Truncation and floor *)

Lemma int_of_float_nonneg (v : Q) : (0 <= v)%Q -> int_of_float v = Qfloor v.
Proof.
  destruct v as [n d]. unfold Qle, int_of_float, Qfloor. simpl. intros Hn.
  apply Z.quot_div_nonneg; lia.
Qed.



Lemma int_of_float_inject_Z (n : Z) : int_of_float (inject_Z n) = n.
Proof. unfold int_of_float. simpl. apply Z.quot_1_r. Qed.



(** ** Geometry *)










(** ** Region selection *)

Lemma insert_stable_hd {A : Type} (before : A -> A -> bool) (a : A) (l : list A) :
  hd_error (insert_stable before a l)
    = match hd_error l with
      | None => Some a
      | Some b => if before b a then Some b else Some a
      end.
Proof.
  destruct l as [| b l']; simpl; [reflexivity|].
  destruct (before b a); reflexivity.
Qed.

(** The head of the sorted list, computed without sorting: scan from the
    right and keep the earlier element unless the later one is strictly
    longer. *)
Lemma primary_segment_cons (a : Segment) (l : list Segment) :
  primary_segment (a :: l)
    = match primary_segment l with
      | None => Some a
      | Some b => if longer_first b a then Some b else Some a
      end.
Proof. unfold primary_segment. simpl. apply insert_stable_hd. Qed.

Lemma primary_segment_none (l : list Segment) : primary_segment l = None -> l = [].
Proof.
  destruct l as [| a l]; [reflexivity|].
  rewrite primary_segment_cons.
  destruct (primary_segment l) as [b|]; [destruct (longer_first b a)|]; discriminate.
Qed.





Lemma pick_primary_crop_primary (segs : list Segment) (s : Segment) :
  primary_segment segs = Some s ->
  pick_primary_crop {| segments := Some segs |} = box_if_positive s.
Proof.
  unfold primary_segment, pick_primary_crop, box_if_positive. simpl.
  destruct segs as [| a l]; [discriminate|].
  destruct (sorted_stable longer_first (a :: l)) as [| s' l']; [discriminate|].
  simpl. intros H. injection H as ->. reflexivity.
Qed.

Lemma box_if_positive_sound (s : Segment) (x y w h : Z) :
  box_if_positive s = Some (x, y, w, h) -> 0 < w /\ 0 < h.
Proof.
  unfold box_if_positive. destruct (segment_box s) as [[[x' y'] w'] h'].
  destruct (0 <? Z.min w' h') eqn:Hpos; [| discriminate].
  intros H. injection H as <- <- <- <-. apply Z.ltb_lt in Hpos. lia.
Qed.

Lemma pick_primary_crop_positive (crops : Crops) (x y w h : Z) :
  pick_primary_crop crops = Some (x, y, w, h) -> 0 < w /\ 0 < h.
Proof.
  destruct crops as [[segs |]]; [| discriminate].
  destruct (primary_segment segs) as [s |] eqn:Hs.
  - rewrite (pick_primary_crop_primary segs s Hs). apply box_if_positive_sound.
  - apply primary_segment_none in Hs. subst segs. discriminate.
Qed.



(** Two regions of equal duration: the one that starts first is chosen. *)
Example equal_durations_first_wins :
  chronological tie_segments
  /\ primary_segment tie_segments = Some (region 0 5 100)
  /\ pick_primary_crop {| segments := Some tie_segments |} = Some (100, 40, 300, 500).
Proof.
  split; [| split; reflexivity].
  unfold chronological, tie_segments.
  repeat (constructor; [| repeat constructor; unfold Qle; simpl; lia]).
  constructor.
Qed.

(** The tie is broken by the position in the sequence: were the detector to
    answer out of chronological order, the region met first would be chosen
    even though it starts later. *)
Example tie_break_is_by_position :
  primary_segment [region 5 10 200; region 0 5 100] = Some (region 5 10 200).
Proof. reflexivity. Qed.

(** ** Escaping *)

Example replace_examples :
  replace "_subtitled" "" "clip_1_subtitled" = "clip_1"
  /\ replace "aa" "b" "aaa" = "ba"
  /\ replace "," "\," "Bold=1,WrapStyle=2" = "Bold=1\,WrapStyle=2"
  /\ (str_of_int 0, str_of_int (-15), str_of_int 1080) = ("0", "-15", "1080").
Proof. repeat split; reflexivity. Qed.

Lemma replace_char_cons (o : ascii) (new : string) (c : ascii) (rest : string) :
  replace (String o "") new (String c rest)
    = if (c =? o)%char then new ++ replace (String o "") new rest
      else String c (replace (String o "") new rest).
Proof.
  unfold replace. simpl.
  destruct (ascii_dec o c) as [-> | Hne].
  - rewrite Ascii.eqb_refl. destruct rest; reflexivity.
  - destruct (Ascii.eqb_spec c o) as [-> | _]; [contradiction | reflexivity].
Qed.

Lemma append_assoc (a b c : string) : (a ++ b) ++ c = a ++ (b ++ c).
Proof. induction a as [| x a IH]; simpl; [reflexivity | rewrite IH; reflexivity]. Qed.

Lemma replace_char_app (o : ascii) (new a b : string) :
  replace (String o "") new (a ++ b)
    = replace (String o "") new a ++ replace (String o "") new b.
Proof.
  induction a as [| c a IH]; [reflexivity|].
  change (String c a ++ b) with (String c (a ++ b)).
  rewrite !replace_char_cons, IH.
  destruct (c =? o)%char; [rewrite append_assoc|]; reflexivity.
Qed.

Lemma escape_for_subtitles_cons (c : ascii) (rest : string) :
  escape_for_subtitles (String c rest) = escape_char c ++ escape_for_subtitles rest.
Proof.
  unfold escape_for_subtitles, escape_char.
  rewrite replace_char_cons.
  destruct (c =? "\")%char eqn:E1.
  { rewrite !replace_char_app. reflexivity. }
  rewrite replace_char_cons.
  destruct (c =? ":")%char eqn:E2.
  { rewrite !replace_char_app. reflexivity. }
  rewrite replace_char_cons.
  destruct (c =? ",")%char eqn:E3.
  { rewrite !replace_char_app. reflexivity. }
  rewrite replace_char_cons.
  destruct (c =? "'")%char eqn:E4; reflexivity.
Qed.

Lemma escape_for_subtitles_one_pass (path : string) :
  escape_for_subtitles path = escape_each path.
Proof.
  induction path as [| c rest IH]; [reflexivity|].
  rewrite escape_for_subtitles_cons, IH. reflexivity.
Qed.

(** C3: the escape function substitutes the backslash first and then the
    colon, the comma and the single quote; with that order the result is
    the one-pass escaping of the path, every special character getting
    exactly one backslash, so a backslash introduced for a colon, a comma
    or a quote is never escaped again; and the style passed as
    [force_style] is [CAPTION_STYLE] with each of its commas escaped. *)
Theorem escaping_order_prevents_double_escaping :
  forall path : string,
    escape_for_subtitles path
      = replace "'" "\'" (replace "," "\," (replace ":" "\:" (replace "\" "\\" path)))
    /\ escape_for_subtitles path = escape_each path
    /\ escape_for_subtitles "C:\subs\it's, here.srt" = "C\:\\subs\\it\'s\, here.srt"
    /\ (forall base_label,
          subtitles_part base_label path
            = base_label ++ "subtitles='" ++ escape_each path ++ "':force_style='"
                ++ replace "," "\," CAPTION_STYLE ++ "'[base2]")
    /\ replace "," "\," CAPTION_STYLE
         = "FontName=DejaVu Sans\,FontSize=13\,PrimaryColour=&H00FFFFFF&\,BackColour=&H80000000&\,Outline=0\,Shadow=0\,BorderStyle=3\,Alignment=2\,MarginV=120\,Bold=1\,WrapStyle=2"
    /\ commas_escaped (replace "," "\," CAPTION_STYLE) = true
    /\ unescape_commas (replace "," "\," CAPTION_STYLE) = CAPTION_STYLE.
Proof.
  intros path.
  split; [reflexivity|].
  split; [apply escape_for_subtitles_one_pass|].
  split; [reflexivity|].
  split.
  - intros base_label. unfold subtitles_part.
    rewrite escape_for_subtitles_one_pass. reflexivity.
  - repeat split; reflexivity.
Qed.

(** Had the backslash been substituted last, the backslash introduced for a
    colon would have been doubled. *)
Example backslash_last_would_double_escape :
  replace "\" "\\" (replace ":" "\:" "a:b") = "a\\:b"
  /\ escape_for_subtitles "a:b" = "a\:b".
Proof. split; reflexivity. Qed.

(** ** Foreground stage *)

Lemma foreground_part_smart (x y w h : Z) :
  0 < x -> 0 < y -> 0 < w -> 0 < h ->
  foreground_part (Some (x, y, w, h))
    = "[0:v]crop=" ++ str_of_int w ++ ":" ++ str_of_int h ++ ":" ++ str_of_int x
        ++ ":" ++ str_of_int y ++ "[fg]".
Proof.
  intros Hx Hy Hw Hh. unfold foreground_part, use_smart_crop. simpl.
  apply Z.ltb_lt in Hx, Hy, Hw, Hh. rewrite Hx, Hy, Hw, Hh. reflexivity.
Qed.

(** A crop box whose origin touches the left or the top edge of the frame
    is replaced by the centered crop, whatever its extents. *)
Lemma foreground_part_origin_on_edge (x y w h : Z) :
  x <= 0 \/ y <= 0 ->
  foreground_part (Some (x, y, w, h)) = center_crop_part.
Proof.
  intros Hxy. unfold foreground_part, use_smart_crop. simpl.
  destruct (0 <? x) eqn:Hx; [| reflexivity].
  destruct (0 <? y) eqn:Hy; [| reflexivity].
  apply Z.ltb_lt in Hx, Hy. lia.
Qed.

(** C2, on the code: for the crop box (0, 0, 150, 150), whose width and
    height are positive and whose origin is the corner of the frame, the
    foreground stage is the centered 9:16 crop and not
    [crop=150:150:0:0]; this box is what [expand_crop_box] returns for the
    boundary example of the specification. *)
Theorem crop_box_at_frame_origin_is_discarded :
  foreground_part (Some (0, 0, 150, 150)) = center_crop_part
  /\ nth_error (filtergraph_parts (Some (0, 0, 150, 150)) 1080 1920 None) 1
       = Some center_crop_part
  /\ smart_crop_part (0, 0, 150, 150) = "[0:v]crop=150:150:0:0[fg]"
  /\ center_crop_part <> smart_crop_part (0, 0, 150, 150)
  /\ expand_crop_box (0, 0, 100, 100) 150 150 3 = (0, 0, 150, 150)
  /\ foreground_part (Some (1, 1, 150, 150)) = "[0:v]crop=150:150:1:1[fg]".
Proof.
  repeat split; try reflexivity.
  vm_compute. discriminate.
Qed.

(** ** Stage order *)

Lemma output_label_app (a b l : string) :
  output_label b = l -> l <> "" -> output_label (a ++ b) = l.
Proof.
  intros Hb Hl. induction a as [| c a IH]; simpl; [assumption|].
  rewrite IH. apply String.eqb_neq in Hl. rewrite Hl. reflexivity.
Qed.

Ltac find_label :=
  repeat match goal with
         | |- output_label (?a ++ ?b) = ?l => apply (output_label_app a b l); [| discriminate]
         end;
  reflexivity.





Lemma template_part_label (base_label : string) :
  output_label (template_part base_label) = "[outv]".
Proof. unfold template_part. find_label. Qed.

Lemma filtergraph_parts_plain (crop_box : option Box) (out_w out_h : Z) :
  filtergraph_parts crop_box out_w out_h None
    = [background_part out_w out_h; foreground_part crop_box; fit_part out_w out_h;
       composite_part; template_part "[base]"].
Proof. reflexivity. Qed.

Lemma filtergraph_parts_subtitled (crop_box : option Box) (out_w out_h : Z) (srt : string) :
  filtergraph_parts crop_box out_w out_h (Some srt)
    = [background_part out_w out_h; foreground_part crop_box; fit_part out_w out_h;
       composite_part; subtitles_part "[base]" srt; template_part "[base2]"].
Proof. reflexivity. Qed.


Example build_filtergraph_plain :
  build_filtergraph None 1080 1920 None
    = "[0:v]scale='if(gte(iw/ih,1080/1920),-1,1080)':'if(gte(iw/ih,1080/1920),1920,-1)',boxblur=24:1,crop=1080:1920[bg],[0:v]crop=iw*min(1.0\,ih/iw*9/16):ih*min(1.0\,iw/ih*16/9):(iw - iw*min(1.0\,ih/iw*9/16))/2:(ih - ih*min(1.0\,iw/ih*16/9))/2[fg],[fg]scale=1080:1920:force_original_aspect_ratio=decrease[fgs],[bg][fgs]overlay=(W-w)/2:(H-h)/2[base],[base][1:v]overlay=0:0[outv]".
Proof. reflexivity. Qed.

Example build_filtergraph_subtitled :
  build_filtergraph (Some (700, 300, 300, 300)) 1080 1920 (Some "subs/clip_1.srt")
    = "[0:v]scale='if(gte(iw/ih,1080/1920),-1,1080)':'if(gte(iw/ih,1080/1920),1920,-1)',boxblur=24:1,crop=1080:1920[bg],[0:v]crop=300:300:700:300[fg],[fg]scale=1080:1920:force_original_aspect_ratio=decrease[fgs],[bg][fgs]overlay=(W-w)/2:(H-h)/2[base],[base]subtitles='subs/clip_1.srt':force_style='FontName=DejaVu Sans\,FontSize=13\,PrimaryColour=&H00FFFFFF&\,BackColour=&H80000000&\,Outline=0\,Shadow=0\,BorderStyle=3\,Alignment=2\,MarginV=120\,Bold=1\,WrapStyle=2'[base2],[base2][1:v]overlay=0:0[outv]".
Proof. reflexivity. Qed.

(** ** The driver *)

Section Driver.

Variable w : World.
Variable args : Args.

Lemma state_eta (s : State) : {| trace := trace s; crop_box_var := crop_box_var s |} = s.
Proof. destruct s; reflexivity. Qed.

Ltac silent_block :=
  exists []; split; [| split; reflexivity];
  intros s; unfold ret; rewrite app_nil_r, state_eta; reflexivity.

Lemma decide_subtitles_run (clip : Clip) :
  exists evs,
    (forall s, decide_subtitles w args clip s
       = ({| trace := (trace s ++ evs)%list; crop_box_var := crop_box_var s |},
          Returned (resolved_srt w args clip)))
    /\ quiet evs.
Proof.
  unfold decide_subtitles, resolved_srt.
  destruct (subs_mode args); [silent_block | silent_block |].
  destruct (truthy (subs_file args)); simpl; [| silent_block].
  destruct (path_exists w (subs_file args)); [silent_block|].
  exists [Printed WarnSubsFileNotFound]. split; [| split; reflexivity].
  intros s. reflexivity.
Qed.

Ltac step_driver :=
  unfold smart_crop, get_video_dimensions, run, ff_design, bind, try_except, print, emit,
    set_crop_box, get_crop_box, lift, ret, raise; simpl.

Lemma smart_crop_run (clip : Clip) :
  exists evs,
    (forall s, smart_crop w args clip s
       = ({| trace := (trace s ++ evs)%list; crop_box_var := resolved_crop w args clip |},
          Returned tt))
    /\ quiet evs
    /\ (forall e, disable_smart_crop args = false ->
          truthy (pyannote_token args) = true ->
          resize w (clip_path clip) (pyannote_token args) = Raised e ->
          In (Printed (WarnResizeFailed e)) evs).
Proof.
  unfold resolved_crop.
  destruct (disable_smart_crop args) eqn:Hd.
  { exists [Printed InfoSmartCropDisabled].
    split; [| split; [split; reflexivity | discriminate]].
    intros s. step_driver. rewrite Hd. reflexivity. }
  destruct (truthy (pyannote_token args)) eqn:Ht.
  2:{ exists [Printed InfoTokenMissing].
      split; [| split; [split; reflexivity | discriminate]].
      intros s. step_driver. rewrite Hd, Ht. reflexivity. }
  destruct (resize w (clip_path clip) (pyannote_token args)) as [crops | e] eqn:Hr.
  2:{ exists [Resized (clip_path clip); Printed (WarnResizeFailed e)].
      split; [| split; [split; reflexivity |]].
      - intros s. step_driver. rewrite Hd, Ht. simpl. rewrite Hr. simpl.
        rewrite <- app_assoc. reflexivity.
      - intros e' _ _ He'. injection He' as <-. simpl. auto. }
  destruct (pick_primary_crop crops) as [box |] eqn:Hp.
  2:{ exists [Resized (clip_path clip)].
      split; [| split; [split; reflexivity | discriminate]].
      intros s. step_driver. rewrite Hd, Ht. simpl. rewrite Hr. simpl. rewrite Hp.
      reflexivity. }
  destruct (negb (Qeq_bool (crop_expansion args) 1)) eqn:Hx.
  2:{ exists [Resized (clip_path clip)].
      split; [| split; [split; reflexivity | discriminate]].
      intros s. step_driver. rewrite Hd, Ht. simpl. rewrite Hr. simpl. rewrite Hp, Hx.
      reflexivity. }
  destruct (video_dimensions w (clip_path clip)) as [[vw vh] | e] eqn:Hv.
  - exists [Resized (clip_path clip); Probed (clip_path clip);
            Printed (InfoExpanded box (expand_crop_box box vw vh (crop_expansion args))
                       (crop_expansion args))].
    split; [| split; [split; reflexivity | discriminate]].
    intros s. step_driver. rewrite Hd, Ht. simpl. rewrite Hr. simpl. rewrite Hp, Hx.
    simpl. rewrite Hv. simpl. rewrite <- !app_assoc. reflexivity.
  - exists [Resized (clip_path clip); Probed (clip_path clip); Printed (WarnResizeFailed e)].
    split; [| split; [split; reflexivity | discriminate]].
    intros s. step_driver. rewrite Hd, Ht. simpl. rewrite Hr. simpl. rewrite Hp, Hx.
    simpl. rewrite Hv. simpl. rewrite <- !app_assoc. reflexivity.
Qed.

Lemma run_run (cmd : list string) (s : State) :
  run w cmd s
    = ({| trace := (trace s ++ [Printed (Echo cmd); Ran cmd (exit_status w cmd)])%list;
          crop_box_var := crop_box_var s |},
       if exit_status w cmd =? 0 then Returned tt
       else Raised (CalledProcessError (exit_status w cmd) cmd)).
Proof.
  step_driver. rewrite <- app_assoc. simpl.
  destruct (exit_status w cmd =? 0); reflexivity.
Qed.

Lemma renders_app (t1 t2 : list Event) : renders (t1 ++ t2) = (renders t1 ++ renders t2)%list.
Proof.
  induction t1 as [| ev t1 IH]; simpl; [reflexivity|].
  destruct ev; simpl; rewrite ?IH; reflexivity.
Qed.

Lemma started_app (t1 t2 : list Event) : started (t1 ++ t2) = (started t1 ++ started t2)%list.
Proof.
  induction t1 as [| ev t1 IH]; simpl; [reflexivity|].
  destruct ev as [m | | | |]; simpl; rewrite ?IH; try reflexivity.
  destruct m; simpl; rewrite ?IH; reflexivity.
Qed.

(** One iteration, from any state: it appends its events, leaves the
    resolved crop in [crop_box], and ends as the rendering command ends. *)
Lemma design_clip_shape (clip : Clip) :
  exists evs,
    (forall s, design_clip w args clip s
       = ({| trace := (trace s ++ evs
                         ++ [Printed (Echo (render_cmd w args clip));
                             Ran (render_cmd w args clip)
                                 (exit_status w (render_cmd w args clip))])%list;
             crop_box_var := resolved_crop w args clip |},
          clip_outcome w args clip))
    /\ renders evs = []
    /\ started evs = [clip_name clip]
    /\ (forall e, disable_smart_crop args = false ->
          truthy (pyannote_token args) = true ->
          resize w (clip_path clip) (pyannote_token args) = Raised e ->
          In (Printed (WarnResizeFailed e)) evs).
Proof.
  destruct (decide_subtitles_run clip) as (e1 & H1 & R1 & S1).
  destruct (smart_crop_run clip) as (e2 & H2 & (R2 & S2) & W2).
  exists (Printed (Designing (clip_name clip)) :: e1 ++ e2)%list.
  split; [| split; [| split]].
  - intros s. unfold design_clip, bind at 1, print, emit. simpl.
    unfold bind at 1. rewrite H1.
    unfold bind at 1. rewrite H2. simpl.
    unfold bind at 1, get_crop_box. simpl.
    unfold ff_design. rewrite run_run. simpl.
    unfold clip_outcome, render_cmd.
    rewrite <- ?app_assoc. simpl. rewrite <- ?app_assoc. reflexivity.
  - simpl. rewrite renders_app, R1, R2. reflexivity.
  - simpl. rewrite started_app, S1, S2. reflexivity.
  - intros e Hd Ht Hr. right. apply in_or_app. right. apply (W2 e Hd Ht Hr).
Qed.

Lemma design_clip_run (clip : Clip) (s : State) :
  design_clip w args clip s
    = ({| trace := (trace s ++ clip_events w args clip)%list;
          crop_box_var := resolved_crop w args clip |},
       clip_outcome w args clip).
Proof.
  destruct (design_clip_shape clip) as (evs & H & _).
  unfold clip_events. rewrite !H. reflexivity.
Qed.

Lemma clip_events_renders (clip : Clip) :
  renders (clip_events w args clip)
    = [(render_cmd w args clip, exit_status w (render_cmd w args clip))].
Proof.
  destruct (design_clip_shape clip) as (evs & H & R & _ & _).
  unfold clip_events. rewrite H. simpl. rewrite renders_app, R. reflexivity.
Qed.

Lemma clip_events_started (clip : Clip) :
  started (clip_events w args clip) = [clip_name clip].
Proof.
  destruct (design_clip_shape clip) as (evs & H & _ & S & _).
  unfold clip_events. rewrite H. simpl. rewrite started_app, S. reflexivity.
Qed.



(** The loop stops at the first clip whose rendering fails. *)
Lemma for_each_stops (done later : list Clip) (clip : Clip)
    (s : State) :
  (forall c, In c done -> exit_status w (render_cmd w args c) = 0) ->
  exit_status w (render_cmd w args clip) <> 0 ->
  for_each (done ++ clip :: later) (design_clip w args) s
    = ({| trace := (trace s ++ flat_map (clip_events w args) (done ++ [clip]))%list;
          crop_box_var := resolved_crop w args clip |},
       Raised (CalledProcessError (exit_status w (render_cmd w args clip))
                 (render_cmd w args clip))).
Proof.
  revert s. induction done as [| c l IH]; intros s Hok Hfail.
  - simpl. unfold bind. rewrite design_clip_run. unfold clip_outcome.
    apply Z.eqb_neq in Hfail. rewrite Hfail. rewrite app_nil_r. reflexivity.
  - simpl. unfold bind. rewrite design_clip_run.
    unfold clip_outcome at 1. rewrite (Hok c (or_introl eq_refl)). simpl.
    fold (bind (A := unit) (B := unit)).
    rewrite IH; [| intros c' Hc'; apply Hok; right; assumption | assumption].
    simpl. rewrite <- app_assoc. reflexivity.
Qed.
(** C9: subtitle resolution for a clip.  With mode [off] the result is
    [None] whatever files exist; with mode [file] and an explicit file that
    does not exist the result is [None], a warning is printed and nothing is
    raised; with mode [auto], when the file next to the clip and the one in
    the search directory both exist, the file next to the clip is chosen. *)
Theorem subtitle_resolution_modes :
  forall (clip : Clip) (s : State),
    (subs_mode args = subs_off ->
       decide_subtitles w args clip s = (s, Returned None))
    /\ (subs_mode args = subs_file_mode ->
        truthy (subs_file args) = true ->
        path_exists w (subs_file args) = false ->
          decide_subtitles w args clip s
            = ({| trace := (trace s ++ [Printed WarnSubsFileNotFound])%list;
                  crop_box_var := crop_box_var s |}, Returned None))
    /\ (subs_mode args = subs_auto ->
        path_exists w (clip_with_suffix_srt clip) = true ->
        path_exists w (path_join (subs_dir args) (clip_stem clip ++ ".srt")) = true ->
          decide_subtitles w args clip s
            = (s, Returned (Some (clip_with_suffix_srt clip)))).
Proof.
  intros clip s. unfold decide_subtitles. repeat split.
  - intros ->. reflexivity.
  - intros -> -> ->. reflexivity.
  - intros -> -> _. reflexivity.
Qed.


(** C8: when the region selected from the detector's answer has a
    non-positive width or height (after [int()]), the resolver returns
    [None]: [pick_primary_crop] returns no rectangle, and the driver leaves
    [crop_box] at [None], whatever the other settings are; a rectangle that
    [pick_primary_crop] does return has positive width and height. *)
Theorem degenerate_region_rejected :
  forall (clip : Clip) (crops : Crops)
         (segs : list Segment) (s : Segment) (bx by_ bw bh : Z),
    resize w (clip_path clip) (pyannote_token args) = Returned crops ->
    segments crops = Some segs ->
    primary_segment segs = Some s ->
    segment_box s = (bx, by_, bw, bh) ->
    bw <= 0 \/ bh <= 0 ->
    pick_primary_crop crops = None
    /\ resolved_crop w args clip = None
    /\ (forall st, crop_box_var (fst (smart_crop w args clip st)) = None)
    /\ (forall crops' x y w' h',
          pick_primary_crop crops' = Some (x, y, w', h') -> 0 < w' /\ 0 < h').
Proof.
  intros clip crops segs s bx by_ bw bh Hr Hsegs Hs Hbox Hdeg.
  assert (Hpick : pick_primary_crop crops = None).
  { destruct crops as [o]. simpl in Hsegs. subst o.
    rewrite (pick_primary_crop_primary segs s Hs).
    unfold box_if_positive. rewrite Hbox.
    destruct (0 <? Z.min bw bh) eqn:Hpos; [| reflexivity].
    apply Z.ltb_lt in Hpos. lia. }
  assert (Hres : resolved_crop w args clip = None).
  { unfold resolved_crop. rewrite Hr, Hpick.
    destruct (disable_smart_crop args), (truthy (pyannote_token args)); reflexivity. }
  split; [assumption|]. split; [assumption|]. split.
  - intros st. destruct (smart_crop_run clip) as (evs & H & _).
    rewrite H. simpl. assumption.
  - intros crops' x y w' h'. apply pick_primary_crop_positive.
Qed.


Lemma main_run :
  path_exists w (template args) = true ->
  sorted_inputs w args <> [] ->
  main w args initial_state
    = bind (for_each (sorted_inputs w args) (design_clip w args))
        (fun _ => print AllDesigned)
        {| trace := [Mkdir (output_dir args)]; crop_box_var := None |}.
Proof.
  intros Ht Hne. unfold main, bind at 1, emit. simpl. rewrite Ht. simpl.
  destruct (sorted_inputs w args); [contradiction | reflexivity].
Qed.

Lemma renders_flat_map_ok (clips : list Clip) :
  (forall c, In c clips -> exit_status w (render_cmd w args c) = 0) ->
  renders (flat_map (clip_events w args) clips)
    = map (fun c => (render_cmd w args c, 0)) clips.
Proof.
  induction clips as [| c l IH]; intros Hok; [reflexivity|].
  simpl. rewrite renders_app, clip_events_renders, (Hok c (or_introl eq_refl)).
  simpl. f_equal. apply IH. intros c' Hc'. apply Hok. right. assumption.
Qed.

Lemma started_flat_map (clips : list Clip) :
  started (flat_map (clip_events w args) clips) = map clip_name clips.
Proof.
  induction clips as [| c l IH]; [reflexivity|].
  simpl. rewrite started_app, clip_events_started, IH. reflexivity.
Qed.




Lemma last_ffmpeg_cmd (src dst overlay_png vf : string) :
  last (ffmpeg_cmd src dst overlay_png vf) "" = dst.
Proof. reflexivity. Qed.

Lemma outputs_written_ok (clips : list Clip) (t : list Event) :
  outputs_written t = [] ->
  (forall c, In c clips -> exit_status w (render_cmd w args c) = 0) ->
  outputs_written (flat_map (clip_events w args) clips ++ t) = map (destination args) clips.
Proof.
  intros Ht. unfold outputs_written in *.
  induction clips as [| c l IH]; intros Hok; [assumption|].
  simpl. rewrite <- app_assoc, renders_app, clip_events_renders.
  simpl. rewrite (Hok c (or_introl eq_refl)). simpl.
  f_equal.
  apply IH. intros c' Hc'. apply Hok. right. assumption.
Qed.

(** C10: when the rendering engine exits with a non-zero status on a clip,
    [main] raises at once, with the [CalledProcessError] of that command:
    the run consists of the iterations of the clips up to and including
    that one, so no later clip of the sorted batch is processed or
    rendered, and the outputs written for the earlier clips are those of
    their successful renderings. *)
Theorem render_failure_aborts_batch :
  forall (done later : list Clip) (clip : Clip),
    path_exists w (template args) = true ->
    sorted_inputs w args = (done ++ clip :: later)%list ->
    (forall c, In c done -> exit_status w (render_cmd w args c) = 0) ->
    exit_status w (render_cmd w args clip) <> 0 ->
    exists final,
      main w args initial_state
        = (final, Raised (CalledProcessError (exit_status w (render_cmd w args clip))
                            (render_cmd w args clip)))
      /\ trace final
           = Mkdir (output_dir args) :: flat_map (clip_events w args) (done ++ [clip])
      /\ started (trace final) = map clip_name (done ++ [clip])
      /\ renders (trace final)
           = (map (fun c => (render_cmd w args c, 0)) done
                ++ [(render_cmd w args clip, exit_status w (render_cmd w args clip))])%list
      /\ outputs_written (trace final) = map (destination args) done.
Proof.
  intros done later clip Ht Hin Hok Hfail.
  assert (Hne : sorted_inputs w args <> []).
  { rewrite Hin. destruct done; discriminate. }
  eexists. split; [| split; [| split; [| split]]].
  - rewrite (main_run Ht Hne), Hin. unfold bind.
    rewrite (for_each_stops done later clip _ Hok Hfail). reflexivity.
  - reflexivity.
  - simpl. apply started_flat_map.
  - simpl. rewrite flat_map_app, renders_app, renders_flat_map_ok by assumption.
    simpl. rewrite app_nil_r, clip_events_renders. reflexivity.
  - simpl. unfold outputs_written at 1. simpl. fold (outputs_written
      (flat_map (clip_events w args) (done ++ [clip]))).
    rewrite flat_map_app. apply outputs_written_ok; [| assumption].
    unfold outputs_written. simpl. rewrite app_nil_r, clip_events_renders. simpl.
    apply Z.eqb_neq in Hfail. rewrite Hfail. reflexivity.
Qed.

End Driver.

(** ** The scenarios, run *)

Lemma subtitle_resolution_modes_witness :
  decide_subtitles detection_fails_world (demo_args_with subs_off "clips/clip_1.srt")
      (demo_clip "clip_1") initial_state
    = (initial_state, Returned None)
  /\ decide_subtitles no_subtitles_world (demo_args_with subs_file_mode "missing.srt")
       (demo_clip "clip_1") initial_state
     = ({| trace := (trace initial_state ++ [Printed WarnSubsFileNotFound])%list;
           crop_box_var := crop_box_var initial_state |}, Returned None)
  /\ decide_subtitles detection_fails_world (demo_args_with subs_auto "")
       (demo_clip "clip_1") initial_state
     = (initial_state, Returned (Some (clip_with_suffix_srt (demo_clip "clip_1")))).
Proof.
  split; [| split].
  - apply (proj1 (subtitle_resolution_modes detection_fails_world
                    (demo_args_with subs_off "clips/clip_1.srt")
                    (demo_clip "clip_1") initial_state)).
    reflexivity.
  - apply (proj1 (proj2 (subtitle_resolution_modes no_subtitles_world
                           (demo_args_with subs_file_mode "missing.srt")
                           (demo_clip "clip_1") initial_state))); reflexivity.
  - apply (proj2 (proj2 (subtitle_resolution_modes detection_fails_world
                           (demo_args_with subs_auto "")
                           (demo_clip "clip_1") initial_state))); reflexivity.
Defined.

Lemma degenerate_region_rejected_witness :
  pick_primary_crop {| segments := Some [degenerate_segment] |} = None
  /\ resolved_crop degenerate_world demo_args (demo_clip "clip_1") = None
  /\ (forall st,
        crop_box_var (fst (smart_crop degenerate_world demo_args (demo_clip "clip_1") st))
          = None)
  /\ (forall crops' x y w' h',
        pick_primary_crop crops' = Some (x, y, w', h') -> 0 < w' /\ 0 < h').
Proof.
  apply (degenerate_region_rejected degenerate_world demo_args (demo_clip "clip_1")
           {| segments := Some [degenerate_segment] |} [degenerate_segment]
           degenerate_segment 10 20 0 300).
  - reflexivity.
  - reflexivity.
  - reflexivity.
  - reflexivity.
  - left. lia.
Defined.

Example sorted_inputs_example :
  sorted_inputs detection_fails_world demo_args
    = [demo_clip "clip_1"; demo_clip "clip_2"; demo_clip "clip_3"]
  /\ destination demo_args (demo_clip "clip_1_subtitled") = "designed/clip_1_vertical.mp4".
Proof. split; reflexivity. Qed.


(** The batch of three clips of the specification: detection raises on clip
    2; all three are rendered, in sorted order, clip 2 with the centered
    crop and the other two with their expanded region. *)
Example three_clip_batch :
  let final := fst (main detection_fails_world demo_args initial_state) in
  snd (main detection_fails_world demo_args initial_state) = Returned tt
  /\ map (fun r => (nth 3 (fst r) "", nth 7 (fst r) "", last (fst r) "", snd r))
       (renders (trace final))
     = [ ("clips/clip_1.mp4", build_filtergraph (Some (700, 300, 300, 300)) 1080 1920 None,
          "designed/clip_1_vertical.mp4", 0);
         ("clips/clip_2.mp4", build_filtergraph None 1080 1920 None,
          "designed/clip_2_vertical.mp4", 0);
         ("clips/clip_3.mp4", build_filtergraph (Some (700, 300, 300, 300)) 1080 1920 None,
          "designed/clip_3_vertical.mp4", 0) ]
  /\ In (Printed (WarnResizeFailed (OtherException "no speaker found"))) (trace final).
Proof.
  split; [vm_compute; reflexivity|].
  split; [vm_compute; reflexivity|].
  vm_compute. tauto.
Qed.

Lemma render_failure_aborts_batch_witness :
  exists final,
    main render_fails_world demo_args initial_state
      = (final, Raised (CalledProcessError
                          (exit_status render_fails_world
                             (render_cmd render_fails_world demo_args (demo_clip "clip_2")))
                          (render_cmd render_fails_world demo_args (demo_clip "clip_2"))))
    /\ trace final
         = Mkdir (output_dir demo_args)
             :: flat_map (clip_events render_fails_world demo_args)
                  ([demo_clip "clip_1"] ++ [demo_clip "clip_2"])
    /\ started (trace final) = map clip_name ([demo_clip "clip_1"] ++ [demo_clip "clip_2"])
    /\ renders (trace final)
         = (map (fun c => (render_cmd render_fails_world demo_args c, 0)) [demo_clip "clip_1"]
              ++ [(render_cmd render_fails_world demo_args (demo_clip "clip_2"),
                   exit_status render_fails_world
                     (render_cmd render_fails_world demo_args (demo_clip "clip_2")))])%list
    /\ outputs_written (trace final) = map (destination demo_args) [demo_clip "clip_1"].
Proof.
  apply (render_failure_aborts_batch render_fails_world demo_args
           [demo_clip "clip_1"] [demo_clip "clip_3"] (demo_clip "clip_2")).
  - reflexivity.
  - reflexivity.
  - intros c [<- | []]. reflexivity.
  - vm_compute. discriminate.
Defined.

(** The same three clips when the rendering engine fails on clip 2: the
    driver raises, clip 3 is never entered, and the output of clip 1 is the
    only one written. *)
Example render_failure_batch :
  let final := fst (main render_fails_world demo_args initial_state) in
  (exists cmd, snd (main render_fails_world demo_args initial_state)
                 = Raised (CalledProcessError 1 cmd)
               /\ nth 3 cmd "" = "clips/clip_2.mp4")
  /\ started (trace final) = ["clip_1.mp4"; "clip_2.mp4"]
  /\ outputs_written (trace final) = ["designed/clip_1_vertical.mp4"]
  /\ ~ In (Resized "clips/clip_3.mp4") (trace final).
Proof.
  split; [| split; [| split]].
  - eexists. split; vm_compute; reflexivity.
  - vm_compute. reflexivity.
  - vm_compute. reflexivity.
  - vm_compute. intuition discriminate.
Qed.

(** * Further properties *)

(** ** Geometry, continued *)















(** ** Region selection, continued *)



(** ** Escaping, continued *)

Lemma escape_each_app (a b : string) :
  escape_each (a ++ b) = escape_each a ++ escape_each b.
Proof.
  induction a as [| c a IH]; [reflexivity|].
  simpl. rewrite IH, append_assoc. reflexivity.
Qed.

(** X6: escaping distributes over concatenation: the escaped form of a path
    built from two pieces is the escaped first piece followed by the escaped
    second piece. *)
Theorem escape_for_subtitles_app :
  forall a b : string,
    escape_for_subtitles (a ++ b) = escape_for_subtitles a ++ escape_for_subtitles b.
Proof.
  intros a b. rewrite !escape_for_subtitles_one_pass. apply escape_each_app.
Qed.

Lemma unescape_escape_char (c : ascii) (r : string) :
  unescape_from false (escape_char c ++ r) = String c (unescape_from false r).
Proof.
  unfold escape_char.
  destruct (c =? "\")%char eqn:E1.
  { apply Ascii.eqb_eq in E1. subst c. reflexivity. }
  destruct (c =? ":")%char eqn:E2.
  { apply Ascii.eqb_eq in E2. subst c. reflexivity. }
  destruct (c =? ",")%char eqn:E3.
  { apply Ascii.eqb_eq in E3. subst c. reflexivity. }
  destruct (c =? "'")%char eqn:E4.
  { apply Ascii.eqb_eq in E4. subst c. reflexivity. }
  simpl. rewrite E1. reflexivity.
Qed.

Lemma unescape_escape_each (s : string) : unescape (escape_each s) = s.
Proof.
  unfold unescape. induction s as [| c s IH]; [reflexivity|].
  simpl. rewrite unescape_escape_char, IH. reflexivity.
Qed.

(** X7: escaping loses nothing: reading the escaped path back, a backslash
    making the next character literal, gives the original path; hence two
    different paths never have the same escaped form. *)
Theorem escape_for_subtitles_round_trip :
  forall path : string,
    unescape (escape_for_subtitles path) = path
    /\ forall other : string,
         escape_for_subtitles other = escape_for_subtitles path -> other = path.
Proof.
  intros path. split.
  - rewrite escape_for_subtitles_one_pass. apply unescape_escape_each.
  - intros other H.
    rewrite <- (unescape_escape_each other), <- (unescape_escape_each path).
    rewrite <- !escape_for_subtitles_one_pass, H. reflexivity.
Qed.

Lemma no_bare_special_escape_char (c : ascii) (r : string) :
  no_bare_special_from false (escape_char c ++ r) = no_bare_special_from false r.
Proof.
  unfold escape_char.
  destruct (c =? "\")%char eqn:E1.
  { apply Ascii.eqb_eq in E1. subst c. reflexivity. }
  destruct (c =? ":")%char eqn:E2.
  { apply Ascii.eqb_eq in E2. subst c. reflexivity. }
  destruct (c =? ",")%char eqn:E3.
  { apply Ascii.eqb_eq in E3. subst c. reflexivity. }
  destruct (c =? "'")%char eqn:E4.
  { apply Ascii.eqb_eq in E4. subst c. reflexivity. }
  simpl. rewrite E1, E2, E3, E4. reflexivity.
Qed.

(** X8: in the escaped form of any path every backslash is followed by a
    character it escapes, and no colon, comma or single quote stands
    unescaped. *)
Theorem escape_for_subtitles_no_bare_special :
  forall path : string, no_bare_special (escape_for_subtitles path) = true.
Proof.
  intros path. rewrite escape_for_subtitles_one_pass. unfold no_bare_special.
  induction path as [| c s IH]; [reflexivity|].
  simpl. rewrite no_bare_special_escape_char. assumption.
Qed.

(** ** Filter graph, continued *)

(** X9: a crop box without area (non-positive width or height) never
    reaches the crop filter: the graph is the one built without a crop
    box. *)
Theorem build_filtergraph_ignores_empty_crop :
  forall (x y w h out_w out_h : Z) (srt_path : option string),
    w <= 0 \/ h <= 0 ->
    build_filtergraph (Some (x, y, w, h)) out_w out_h srt_path
      = build_filtergraph None out_w out_h srt_path.
Proof.
  intros x y w h out_w out_h srt Hdeg.
  assert (Hfg : foreground_part (Some (x, y, w, h)) = foreground_part None).
  { unfold foreground_part, use_smart_crop. cbn [forallb].
    destruct (0 <? x); [| reflexivity].
    destruct (0 <? y); [| reflexivity].
    destruct (0 <? w) eqn:Hw; [| reflexivity].
    destruct (0 <? h) eqn:Hh; [| reflexivity].
    apply Z.ltb_lt in Hw, Hh. lia. }
  unfold build_filtergraph.
  destruct srt as [srt |].
  - rewrite !filtergraph_parts_subtitled, Hfg. reflexivity.
  - rewrite !filtergraph_parts_plain, Hfg. reflexivity.
Qed.

Lemma build_filtergraph_ignores_empty_crop_witness :
  build_filtergraph (Some (10, 20, 0, 300)) 1080 1920 None
    = build_filtergraph None 1080 1920 None.
Proof.
  apply (build_filtergraph_ignores_empty_crop 10 20 0 300 1080 1920 None).
  left. lia.
Defined.






(** ** The driver, continued *)

Section DriverTraces.

Variable w : World.
Variable args : Args.

Ltac run_block :=
  unfold smart_crop, decide_subtitles, get_video_dimensions, bind, try_except, print, emit,
    set_crop_box, get_crop_box, lift, ret, raise; simpl.

Lemma decide_subtitles_explicit (clip : Clip) (s : State) :
  decide_subtitles w args clip s
    = ({| trace := (trace s ++ srt_events w args clip)%list;
          crop_box_var := crop_box_var s |},
       Returned (resolved_srt w args clip)).
Proof.
  unfold decide_subtitles, resolved_srt, srt_events.
  destruct (subs_mode args); unfold ret; rewrite ?app_nil_r, ?state_eta; try reflexivity.
  destruct (truthy (subs_file args)); simpl;
    [| unfold ret; rewrite app_nil_r, state_eta; reflexivity].
  destruct (path_exists w (subs_file args)); simpl.
  - unfold ret. rewrite app_nil_r, state_eta. reflexivity.
  - reflexivity.
Qed.

Lemma smart_crop_explicit (clip : Clip) (s : State) :
  smart_crop w args clip s
    = ({| trace := (trace s ++ smart_crop_events w args clip)%list;
          crop_box_var := resolved_crop w args clip |},
       Returned tt).
Proof.
  unfold resolved_crop, smart_crop_events.
  destruct (disable_smart_crop args) eqn:Hd.
  { run_block. rewrite Hd. reflexivity. }
  destruct (truthy (pyannote_token args)) eqn:Ht.
  2:{ run_block. rewrite Hd, Ht. reflexivity. }
  destruct (resize w (clip_path clip) (pyannote_token args)) as [crops | e] eqn:Hr.
  2:{ run_block. rewrite Hd, Ht. simpl. rewrite Hr. simpl.
      rewrite <- app_assoc. reflexivity. }
  destruct (pick_primary_crop crops) as [box |] eqn:Hp.
  2:{ run_block. rewrite Hd, Ht. simpl. rewrite Hr. simpl. rewrite Hp. reflexivity. }
  destruct (negb (Qeq_bool (crop_expansion args) 1)) eqn:Hx.
  2:{ run_block. rewrite Hd, Ht. simpl. rewrite Hr. simpl. rewrite Hp, Hx. reflexivity. }
  destruct (video_dimensions w (clip_path clip)) as [[vw vh] | e] eqn:Hv.
  - run_block. rewrite Hd, Ht. simpl. rewrite Hr. simpl. rewrite Hp, Hx.
    simpl. rewrite Hv. simpl. rewrite <- !app_assoc. reflexivity.
  - run_block. rewrite Hd, Ht. simpl. rewrite Hr. simpl. rewrite Hp, Hx.
    simpl. rewrite Hv. simpl. rewrite <- !app_assoc. reflexivity.
Qed.

(** The events of one iteration, spelled out. *)
Lemma clip_events_explicit (clip : Clip) :
  clip_events w args clip
    = (Printed (Designing (clip_name clip))
         :: srt_events w args clip ++ smart_crop_events w args clip
         ++ [Printed (Echo (render_cmd w args clip));
             Ran (render_cmd w args clip) (exit_status w (render_cmd w args clip))])%list.
Proof.
  unfold clip_events, design_clip, bind at 1, print, emit. simpl.
  unfold bind at 1. rewrite decide_subtitles_explicit.
  unfold bind at 1. rewrite smart_crop_explicit. simpl.
  unfold bind at 1, get_crop_box. simpl.
  unfold ff_design. rewrite run_run. simpl.
  rewrite <- ?app_assoc. reflexivity.
Qed.

Lemma for_each_general (clips : list Clip) (s : State) :
  trace (fst (for_each clips (design_clip w args) s))
    = (trace s ++ flat_map (clip_events w args) (attempted w args clips))%list
  /\ snd (for_each clips (design_clip w args) s) = batch_outcome w args clips.
Proof.
  revert s. induction clips as [| c l IH]; intros s.
  - simpl. rewrite app_nil_r. split; reflexivity.
  - simpl. unfold bind. rewrite design_clip_run. unfold clip_outcome.
    destruct (exit_status w (render_cmd w args c) =? 0) eqn:Hrc.
    + destruct (IH {| trace := (trace s ++ clip_events w args c)%list;
                      crop_box_var := resolved_crop w args c |}) as [Ht Ho].
      split; [| assumption]. rewrite Ht. simpl. rewrite <- app_assoc. reflexivity.
    + simpl. rewrite app_nil_r. split; reflexivity.
Qed.

Lemma main_template_missing :
  path_exists w (template args) = false ->
  main w args initial_state
    = ({| trace := [Mkdir (output_dir args)]; crop_box_var := None |},
       Raised (FileNotFoundError (template args))).
Proof. intros H. unfold main, bind, emit, raise. simpl. rewrite H. reflexivity. Qed.

Lemma main_general :
  path_exists w (template args) = true ->
  snd (main w args initial_state) = batch_outcome w args (sorted_inputs w args)
  /\ exists tail,
       trace (fst (main w args initial_state))
         = (Mkdir (output_dir args)
              :: flat_map (clip_events w args) (attempted w args (sorted_inputs w args))
              ++ tail)%list
       /\ quiet tail /\ detector_calls tail = [] /\ probe_calls tail = [].
Proof.
  intros Ht.
  destruct (sorted_inputs w args) as [| c0 l0] eqn:Hin.
  - unfold main, bind, emit, print. simpl. rewrite Ht, Hin. simpl.
    split; [reflexivity|].
    exists [Printed (InfoNoClips (input_dir args))]. repeat split; reflexivity.
  - assert (Hne : sorted_inputs w args <> []) by (rewrite Hin; discriminate).
    rewrite (main_run w args Ht Hne), Hin.
    destruct (for_each_general (c0 :: l0)
                {| trace := [Mkdir (output_dir args)]; crop_box_var := None |}) as [Htr Hout].
    unfold bind.
    destruct (for_each (c0 :: l0) (design_clip w args)
                {| trace := [Mkdir (output_dir args)]; crop_box_var := None |})
      as [s' [[] | e]] eqn:Hloop; simpl in Htr, Hout.
    + split; [simpl; rewrite <- Hout; reflexivity|].
      exists [Printed AllDesigned]. simpl. rewrite Htr. simpl.
      repeat split; reflexivity.
    + split; [simpl; rewrite <- Hout; reflexivity|].
      exists []. simpl. rewrite Htr. simpl. rewrite app_nil_r.
      repeat split; reflexivity.
Qed.





Lemma in_firstn {A : Type} (n : nat) (l : list A) (a : A) : In a (firstn n l) -> In a l.
Proof.
  intros H. rewrite <- (firstn_skipn n l). apply in_or_app. left. assumption.
Qed.

Lemma attempted_prefix (clips : list Clip) :
  exists n, attempted w args clips = firstn n clips.
Proof.
  induction clips as [| c l [n IH]]; [exists 0%nat; reflexivity|].
  simpl. destruct (exit_status w (render_cmd w args c) =? 0).
  - exists (S n). simpl. rewrite IH. reflexivity.
  - exists 1%nat. reflexivity.
Qed.



Lemma detector_calls_app (t1 t2 : list Event) :
  detector_calls (t1 ++ t2) = (detector_calls t1 ++ detector_calls t2)%list.
Proof.
  induction t1 as [| ev t1 IH]; simpl; [reflexivity|].
  destruct ev; simpl; rewrite ?IH; reflexivity.
Qed.

Lemma probe_calls_app (t1 t2 : list Event) :
  probe_calls (t1 ++ t2) = (probe_calls t1 ++ probe_calls t2)%list.
Proof.
  induction t1 as [| ev t1 IH]; simpl; [reflexivity|].
  destruct ev; simpl; rewrite ?IH; reflexivity.
Qed.

Lemma srt_events_calls (clip : Clip) :
  detector_calls (srt_events w args clip) = [] /\ probe_calls (srt_events w args clip) = [].
Proof.
  unfold srt_events. destruct (subs_mode args); try (split; reflexivity).
  destruct (truthy (subs_file args) && negb (path_exists w (subs_file args)));
    split; reflexivity.
Qed.

Lemma smart_crop_events_detector (clip : Clip) :
  detector_calls (smart_crop_events w args clip)
    = if detection_enabled args then [clip_path clip] else [].
Proof.
  unfold smart_crop_events, detection_enabled.
  destruct (disable_smart_crop args); [reflexivity|].
  destruct (truthy (pyannote_token args)); [| reflexivity].
  simpl. f_equal.
  destruct (resize w (clip_path clip) (pyannote_token args)) as [crops | e]; [| reflexivity].
  destruct (pick_primary_crop crops); [| reflexivity].
  destruct (negb (Qeq_bool (crop_expansion args) 1)); [| reflexivity].
  destruct (video_dimensions w (clip_path clip)) as [[vw vh] | e]; reflexivity.
Qed.

Lemma clip_events_detector (clip : Clip) :
  detector_calls (clip_events w args clip)
    = if detection_enabled args then [clip_path clip] else [].
Proof.
  rewrite clip_events_explicit. simpl.
  rewrite !detector_calls_app, smart_crop_events_detector.
  destruct (srt_events_calls clip) as [-> _]. simpl. apply app_nil_r.
Qed.

Lemma detector_calls_flat_map (clips : list Clip) :
  detector_calls (flat_map (clip_events w args) clips)
    = if detection_enabled args then map clip_path clips else [].
Proof.
  induction clips as [| c l IH]; simpl.
  - destruct (detection_enabled args); reflexivity.
  - rewrite detector_calls_app, clip_events_detector, IH.
    destruct (detection_enabled args); reflexivity.
Qed.

(** X14: once the template is found, the detector is called exactly once
    for each clip [main] enters, in order, when smart cropping is enabled
    and a token is given; it is never called when smart cropping is
    disabled or the token is empty. *)
Theorem detector_called_once_per_clip :
  path_exists w (template args) = true ->
  detector_calls (trace (fst (main w args initial_state)))
    = if detection_enabled args
      then map clip_path (attempted w args (sorted_inputs w args))
      else [].
Proof.
  intros Ht. destruct (main_general Ht) as (_ & tail & Htr & _ & Hd & _).
  rewrite Htr. simpl. rewrite detector_calls_app, Hd, app_nil_r.
  apply detector_calls_flat_map.
Qed.

Lemma smart_crop_events_probe (clip : Clip) (p : string) :
  In p (probe_calls (smart_crop_events w args clip)) ->
  p = clip_path clip
  /\ detection_enabled args = true
  /\ Qeq_bool (crop_expansion args) 1 = false
  /\ exists crops box,
       resize w (clip_path clip) (pyannote_token args) = Returned crops
       /\ pick_primary_crop crops = Some box.
Proof.
  unfold smart_crop_events, detection_enabled.
  destruct (disable_smart_crop args); [intros []|].
  destruct (truthy (pyannote_token args)); [| intros []].
  simpl.
  destruct (resize w (clip_path clip) (pyannote_token args)) as [crops | e]; [| intros []].
  destruct (pick_primary_crop crops) as [box |] eqn:Hp; [| intros []].
  destruct (Qeq_bool (crop_expansion args) 1) eqn:Hx; [intros []|].
  simpl.
  assert (Hone : forall q, In q [clip_path clip] -> p = q -> p = clip_path clip)
    by (intros q [<- | []] Hq; assumption).
  destruct (video_dimensions w (clip_path clip)) as [[vw vh] | e]; simpl;
    intros [<- | []]; repeat split; try reflexivity; exists crops, box; split; auto.
Qed.

(** X15: the media probe is run only for a clip of the batch on which the
    detector returned a usable region and only when the expansion factor
    differs from 1: no probe without a detected region, none at factor 1,
    none when detection is off. *)
Theorem probe_only_after_detection :
  forall p : string,
    In p (probe_calls (trace (fst (main w args initial_state)))) ->
    exists clip,
      In clip (sorted_inputs w args)
      /\ p = clip_path clip
      /\ detection_enabled args = true
      /\ Qeq_bool (crop_expansion args) 1 = false
      /\ exists crops box,
           resize w (clip_path clip) (pyannote_token args) = Returned crops
           /\ pick_primary_crop crops = Some box.
Proof.
  intros p Hp.
  destruct (path_exists w (template args)) eqn:Ht.
  2:{ rewrite (main_template_missing Ht) in Hp. destruct Hp. }
  destruct (main_general Ht) as (_ & tail & Htr & _ & _ & Hpr).
  rewrite Htr in Hp. simpl in Hp. rewrite probe_calls_app, Hpr, app_nil_r in Hp.
  destruct (attempted_prefix (sorted_inputs w args)) as [n Hn]. rewrite Hn in Hp.
  assert (Hsub : forall l, In p (probe_calls (flat_map (clip_events w args) l)) ->
            exists clip, In clip l /\ In p (probe_calls (smart_crop_events w args clip))).
  { induction l as [| c l IH]; simpl; [intros []|].
    rewrite probe_calls_app. intros H. apply in_app_or in H. destruct H as [H | H].
    - exists c. split; [left; reflexivity|].
      rewrite clip_events_explicit in H. simpl in H.
      rewrite !probe_calls_app in H. destruct (srt_events_calls c) as [_ Hs].
      rewrite Hs in H. simpl in H. rewrite app_nil_r in H. assumption.
    - destruct (IH H) as (clip & Hin & Hc). exists clip. split; [right|]; assumption. }
  destruct (Hsub _ Hp) as (clip & Hin & Hc).
  exists clip. split; [apply (in_firstn _ _ _ Hin) |].
  apply smart_crop_events_probe. assumption.
Qed.



End DriverTraces.

(** ** The scenarios, run once more *)

(** A graph in which a part reads a stream before it is produced is not
    well wired. *)
Example well_wired_rejects_wrong_order :
  well_wired [background_part 1080 1920; foreground_part None; fit_part 1080 1920;
              template_part "[base]"; composite_part] = false
  /\ no_dangling [background_part 1080 1920; foreground_part None;
                  template_part "[base]"] = false.
Proof. split; reflexivity. Qed.


Lemma detector_called_once_per_clip_witness :
  detector_calls (trace (fst (main detection_fails_world demo_args initial_state)))
    = if detection_enabled demo_args
      then map clip_path (attempted detection_fails_world demo_args
                            (sorted_inputs detection_fails_world demo_args))
      else [].
Proof.
  apply (detector_called_once_per_clip detection_fails_world demo_args).
  reflexivity.
Defined.

Lemma probe_only_after_detection_witness :
  exists clip,
    In clip (sorted_inputs render_fails_world demo_args)
    /\ "clips/clip_1.mp4" = clip_path clip
    /\ detection_enabled demo_args = true
    /\ Qeq_bool (crop_expansion demo_args) 1 = false
    /\ exists crops box,
         resize render_fails_world (clip_path clip) (pyannote_token demo_args) = Returned crops
         /\ pick_primary_crop crops = Some box.
Proof.
  apply (probe_only_after_detection render_fails_world demo_args "clips/clip_1.mp4").
  vm_compute. left. reflexivity.
Defined.


(** ** The SRT timestamp *)

Example format_time_examples :
  format_time 0 = "00:00:00,000"
  /\ format_time (3723456 # 1000) = "01:02:03,456"
  /\ format_time (59999 # 1000) = "00:00:59,999"
  /\ format_time (360000 # 1) = "100:00:00,000"
  /\ (zero_pad 2 5, zero_pad 3 (-5), zero_pad 2 (-5), zero_pad 2 123) = ("05", "-05", "-5", "123").
Proof. repeat split; reflexivity. Qed.

Lemma Qfloor_unique (x : Q) (n : Z) :
  (inject_Z n <= x)%Q -> (x < inject_Z n + 1)%Q -> Qfloor x = n.
Proof.
  intros Hle Hlt.
  pose proof (Qfloor_le x) as H1. pose proof (Qlt_floor x) as H2.
  rewrite inject_Z_plus in H2. change (inject_Z 1) with 1%Q in H2.
  assert (A : (inject_Z (Qfloor x) < inject_Z n + 1)%Q) by lra.
  assert (B : (inject_Z n < inject_Z (Qfloor x) + 1)%Q) by lra.
  change 1%Q with (inject_Z 1) in A, B.
  rewrite <- inject_Z_plus, <- Zlt_Qlt in A, B. lia.
Qed.

(** The floor of a quotient by a positive integer is the integer quotient
    of the floor. *)
Lemma Qfloor_div_Z (u : Q) (k : Z) :
  0 < k -> Qfloor (u / inject_Z k) = Qfloor u / k.
Proof.
  intros Hk.
  assert (Hk' : (0 < inject_Z k)%Q) by (change 0%Q with (inject_Z 0); rewrite <- Zlt_Qlt; lia).
  pose proof (Qfloor_le u) as H1. pose proof (Qlt_floor u) as H2.
  rewrite inject_Z_plus in H2. change (inject_Z 1) with 1%Q in H2.
  pose proof (Z.div_mod (Qfloor u) k ltac:(lia)) as Hdm.
  pose proof (Z.mod_pos_bound (Qfloor u) k Hk) as Hb.
  set (F := Qfloor u) in *. set (D := F / k) in *.
  assert (HF1 : k * D <= F) by lia.
  assert (HF2 : F + 1 <= k * D + k) by lia.
  rewrite Zle_Qle in HF1, HF2.
  rewrite !inject_Z_plus, !inject_Z_mult in *. change (inject_Z 1) with 1%Q in HF2.
  apply Qfloor_unique.
  - apply Qle_shift_div_l; [assumption|].
    apply Qle_trans with (inject_Z F); [| assumption]. rewrite Qmult_comm. assumption.
  - apply Qlt_shift_div_r; [assumption|].
    apply Qlt_le_trans with (inject_Z F + 1)%Q; [assumption|].
    apply Qle_trans with (inject_Z k * inject_Z D + inject_Z k)%Q; [assumption|].
    apply Qle_lteq. right. ring.
Qed.

Lemma Qfloor_sub_Z (x : Q) (n : Z) : Qfloor (x - inject_Z n) = Qfloor x - n.
Proof.
  pose proof (Qfloor_le x) as H1. pose proof (Qlt_floor x) as H2.
  rewrite inject_Z_plus in H2. change (inject_Z 1) with 1%Q in H2.
  apply Qfloor_unique; unfold Z.sub; rewrite inject_Z_plus, inject_Z_opp; lra.
Qed.

Section Timestamp.

Variable t : Q.

(** The time in whole milliseconds, seconds and minutes. *)
Let T : Z := Qfloor (t * 1000).

Lemma whole_seconds : Qfloor t = T / 1000.
Proof.
  unfold T. rewrite <- (Qfloor_div_Z (t * 1000) 1000) by lia.
  apply Qfloor_comp. change (inject_Z 1000) with 1000%Q. field.
Qed.

Lemma whole_minutes : Qfloor (t / 60) = T / 60000.
Proof.
  unfold T. rewrite <- (Qfloor_div_Z (t * 1000) 60000) by lia.
  apply Qfloor_comp. change (inject_Z 60000) with 60000%Q. field.
Qed.

Lemma whole_hours : Qfloor (t / 3600) = T / 3600000.
Proof.
  unfold T. rewrite <- (Qfloor_div_Z (t * 1000) 3600000) by lia.
  apply Qfloor_comp. change (inject_Z 3600000) with 3600000%Q. field.
Qed.

Lemma hours_field : int_of_float (floordiv t 3600) = T / 3600000.
Proof. unfold floordiv. rewrite int_of_float_inject_Z. apply whole_hours. Qed.

Lemma minutes_field :
  int_of_float (floordiv (float_mod t 3600) 60) = (T / 60000) mod 60.
Proof.
  unfold floordiv, float_mod. rewrite int_of_float_inject_Z, whole_hours.
  assert (E : ((t - 3600 * inject_Z (T / 3600000)) / 60
               == t / 60 - inject_Z (60 * (T / 3600000)))%Q).
  { rewrite inject_Z_mult. change (inject_Z 60) with 60%Q. field. }
  rewrite (Qfloor_comp _ _ E), Qfloor_sub_Z, whole_minutes.
  rewrite Z.mod_eq by lia.
  replace (T / 3600000) with (T / 60000 / 60)
    by (rewrite Z.div_div by lia; reflexivity).
  reflexivity.
Qed.

Lemma seconds_field : int_of_float (float_mod t 60) = (T / 1000) mod 60.
Proof.
  unfold float_mod. rewrite whole_minutes.
  assert (E : (t - 60 * inject_Z (T / 60000) == t - inject_Z (60 * (T / 60000)))%Q).
  { rewrite inject_Z_mult. change (inject_Z 60) with 60%Q. ring. }
  assert (Hfl : Qfloor (t - 60 * inject_Z (T / 60000)) = (T / 1000) mod 60).
  { rewrite (Qfloor_comp _ _ E), Qfloor_sub_Z, whole_seconds.
    rewrite Z.mod_eq by lia.
    replace (T / 60000) with (T / 1000 / 60) by (rewrite Z.div_div by lia; reflexivity).
    reflexivity. }
  rewrite int_of_float_nonneg; [assumption|].
  pose proof (Qfloor_le (t / 60)) as Hle. rewrite whole_minutes in Hle.
  assert (E60 : (t / 60 == t * (1 # 60))%Q) by reflexivity.
  rewrite E60 in Hle. lra.
Qed.

Lemma milliseconds_field :
  int_of_float (float_mod (t * 1000) 1000) = T mod 1000.
Proof.
  unfold float_mod.
  assert (E0 : (t * 1000 / 1000 == t)%Q) by field.
  rewrite (Qfloor_comp _ _ E0), whole_seconds.
  assert (E : (t * 1000 - 1000 * inject_Z (T / 1000)
               == t * 1000 - inject_Z (1000 * (T / 1000)))%Q).
  { rewrite inject_Z_mult. change (inject_Z 1000) with 1000%Q. ring. }
  assert (Hfl : Qfloor (t * 1000 - 1000 * inject_Z (T / 1000)) = T mod 1000).
  { rewrite (Qfloor_comp _ _ E), Qfloor_sub_Z. fold T. rewrite Z.mod_eq by lia. reflexivity. }
  rewrite int_of_float_nonneg; [assumption|].
  pose proof (Qfloor_le t) as Hle. rewrite whole_seconds in Hle. lra.
Qed.

(** X18: for every time [t] the timestamp is [t] cut down to whole
    milliseconds [T = floor(1000 t)] and split into hours [T / 3600000],
    minutes [(T / 60000) mod 60], seconds [(T / 1000) mod 60] and
    milliseconds [T mod 1000], each zero-padded (exact arithmetic). *)
Theorem format_time_fields :
  format_time t
    = zero_pad 2 (Qfloor (t * 1000) / 3600000) ++ ":"
      ++ zero_pad 2 ((Qfloor (t * 1000) / 60000) mod 60) ++ ":"
      ++ zero_pad 2 ((Qfloor (t * 1000) / 1000) mod 60) ++ ","
      ++ zero_pad 3 (Qfloor (t * 1000) mod 1000).
Proof.
  unfold format_time.
  rewrite hours_field, minutes_field, seconds_field, milliseconds_field. reflexivity.
Qed.

End Timestamp.

Lemma all_digits_length (n : nat) (s : string) : all_digits n s = true -> String.length s = n.
Proof.
  revert s. induction n as [| n IH]; intros [| c s]; simpl; try discriminate; [reflexivity|].
  intros H. apply andb_true_iff in H. destruct H as [_ H]. rewrite (IH s H). reflexivity.
Qed.

Lemma zero_pad_small (width : nat) (bound : nat) (n : Z) :
  forallb (fun k => all_digits width (zero_pad width (Z.of_nat k))) (seq 0 bound) = true ->
  0 <= n < Z.of_nat bound ->
  all_digits width (zero_pad width n) = true.
Proof.
  intros Hall Hn. rewrite forallb_forall in Hall.
  rewrite <- (Z2Nat.id n) by lia. apply Hall. apply in_seq. lia.
Qed.

Lemma zero_pad_two_digits (n : Z) : 0 <= n < 100 -> all_digits 2 (zero_pad 2 n) = true.
Proof. apply (zero_pad_small 2 100). vm_compute. reflexivity. Qed.

Lemma zero_pad_three_digits (n : Z) : 0 <= n < 1000 -> all_digits 3 (zero_pad 3 n) = true.
Proof. apply (zero_pad_small 3 1000). vm_compute. reflexivity. Qed.

Lemma length_append (a b : string) :
  String.length (a ++ b) = (String.length a + String.length b)%nat.
Proof. induction a as [| c a IH]; simpl; [reflexivity | rewrite IH; reflexivity]. Qed.

(** X19: for a time from 0 up to, not including, 100 hours the timestamp
    has the SRT shape [HH:MM:SS,mmm]: two digits, a colon, two digits, a
    colon, two digits, a comma and three digits, twelve characters in
    all. *)
Theorem format_time_shape :
  forall t : Q,
    (0 <= t)%Q -> (t < 360000)%Q ->
    exists hh mm ss mmm,
      format_time t = hh ++ ":" ++ mm ++ ":" ++ ss ++ "," ++ mmm
      /\ all_digits 2 hh = true /\ all_digits 2 mm = true
      /\ all_digits 2 ss = true /\ all_digits 3 mmm = true
      /\ String.length (format_time t) = 12%nat.
Proof.
  intros t H0 Hmax.
  assert (HT0 : 0 <= Qfloor (t * 1000)).
  { change 0 with (Qfloor 0). apply Qfloor_resp_le. lra. }
  assert (HTmax : Qfloor (t * 1000) < 360000000).
  { rewrite Zlt_Qlt. apply Qle_lt_trans with (t * 1000)%Q; [apply Qfloor_le|].
    change (inject_Z 360000000) with 360000000%Q. lra. }
  set (T := Qfloor (t * 1000)) in *.
  assert (Hh : all_digits 2 (zero_pad 2 (T / 3600000)) = true).
  { apply zero_pad_two_digits. split.
    - apply Z.div_pos; lia.
    - apply Z.div_lt_upper_bound; lia. }
  assert (Hm : all_digits 2 (zero_pad 2 ((T / 60000) mod 60)) = true).
  { apply zero_pad_two_digits. pose proof (Z.mod_pos_bound (T / 60000) 60). lia. }
  assert (Hs : all_digits 2 (zero_pad 2 ((T / 1000) mod 60)) = true).
  { apply zero_pad_two_digits. pose proof (Z.mod_pos_bound (T / 1000) 60). lia. }
  assert (Hms : all_digits 3 (zero_pad 3 (T mod 1000)) = true).
  { apply zero_pad_three_digits. apply Z.mod_pos_bound. lia. }
  exists (zero_pad 2 (T / 3600000)), (zero_pad 2 ((T / 60000) mod 60)),
    (zero_pad 2 ((T / 1000) mod 60)), (zero_pad 3 (T mod 1000)).
  rewrite format_time_fields. fold T.
  repeat split; try assumption.
  rewrite !length_append.
  rewrite (all_digits_length _ _ Hh), (all_digits_length _ _ Hm),
    (all_digits_length _ _ Hs), (all_digits_length _ _ Hms).
  reflexivity.
Qed.

Lemma format_time_shape_witness :
  exists hh mm ss mmm,
    format_time (3723456 # 1000) = hh ++ ":" ++ mm ++ ":" ++ ss ++ "," ++ mmm
    /\ all_digits 2 hh = true /\ all_digits 2 mm = true
    /\ all_digits 2 ss = true /\ all_digits 3 mmm = true
    /\ String.length (format_time (3723456 # 1000)) = 12%nat.
Proof.
  apply (format_time_shape (3723456 # 1000)).
  - unfold Qle. simpl. lia.
  - reflexivity.
Defined.

(** ** The cleanup endpoint *)

Example cleanup_example :
  let result := cleanup (fun _ _ => None) (Some ["clips"; "nonsense"; "videos"]) sample_files in
  snd result = CleanupSuccess [("clips", 2); ("videos", 1)] "Cleaned 3 files"
  /\ fst result ClipsDir = [ {| entry_name := "old"; entry_is_file := false |} ]
  /\ fst result VideosDir = []
  /\ fst result SubtitledDir = sample_files SubtitledDir
  /\ snd (cleanup (fun _ _ => None) (Some ["clips"; "clips"]) sample_files)
     = CleanupSuccess [("clips", 0)] "Cleaned 0 files"
  /\ snd (cleanup (fun _ name => if (name =? "clip_2.mp4")%string
                                  then Some "Permission denied" else None)
            None sample_files)
     = CleanupError "Permission denied".
Proof. repeat split; reflexivity. Qed.

Lemma Store_eqb_eq (a b : Store) : Store_eqb a b = true <-> a = b.
Proof. destruct a, b; simpl; split; intros H; try reflexivity; discriminate. Qed.

Lemma Store_eqb_refl (a : Store) : Store_eqb a a = true.
Proof. destruct a; reflexivity. Qed.

Lemma filter_all {A : Type} (l : list A) : filter (fun _ => true) l = l.
Proof. induction l as [| a l IH]; simpl; [| rewrite IH]; reflexivity. Qed.

Lemma filter_twice {A : Type} (f g : A -> bool) (l : list A) :
  filter f (filter g l) = filter (fun a => g a && f a) l.
Proof.
  induction l as [| a l IH]; simpl; [reflexivity|].
  destruct (g a); simpl; [destruct (f a); rewrite IH |]; auto.
Qed.

Lemma NoDup_names_filter (f : DirEntry -> bool) (l : list DirEntry) :
  NoDup (map entry_name l) -> NoDup (map entry_name (filter f l)).
Proof.
  induction l as [| e l IH]; simpl; intros H; [constructor|].
  inversion H as [| x xs Hnot Hnd]; subst.
  destruct (f e); simpl; [| apply IH; assumption].
  constructor; [| apply IH; assumption].
  intros Hin. apply Hnot. apply in_map_iff in Hin. destruct Hin as (e' & He' & Hin).
  apply filter_In in Hin. apply in_map_iff. exists e'. tauto.
Qed.

Lemma same_name_same_entry (l : list DirEntry) (e e' : DirEntry) :
  NoDup (map entry_name l) -> In e l -> In e' l -> entry_name e = entry_name e' -> e = e'.
Proof.
  induction l as [| a l IH]; simpl; intros Hnd He He' Hname; [contradiction|].
  inversion Hnd as [| x xs Hnot Hnd']; subst.
  destruct He as [<- | He], He' as [<- | He'].
  - reflexivity.
  - exfalso. apply Hnot. rewrite Hname. apply in_map. assumption.
  - exfalso. apply Hnot. rewrite <- Hname. apply in_map. assumption.
  - apply IH; assumption.
Qed.

Lemma mem_string_In (s : string) (l : list string) : mem_string s l = true <-> In s l.
Proof.
  unfold mem_string. rewrite existsb_exists. split.
  - intros (t & Ht & E). apply String.eqb_eq in E. subst. assumption.
  - intros H. exists s. split; [assumption | apply String.eqb_refl].
Qed.

(** In a well-formed directory, dropping the entries that bear the name of
    one of its regular files drops exactly the regular files. *)
Lemma drop_file_names (l : list DirEntry) :
  NoDup (map entry_name l) ->
  filter (fun e => negb (mem_string (entry_name e) (map entry_name (filter entry_is_file l)))) l
    = filter not_a_file l.
Proof.
  intros Hnd. apply filter_ext_in. intros e He. unfold not_a_file. f_equal.
  destruct (entry_is_file e) eqn:Hf.
  - apply mem_string_In, in_map, filter_In. tauto.
  - destruct (mem_string _ _) eqn:Hm; [| reflexivity].
    apply mem_string_In, in_map_iff in Hm. destruct Hm as (e' & Hname & He').
    apply filter_In in He'. destruct He' as [He' Hf'].
    rewrite (same_name_same_entry l e e' Hnd He He' (eq_sym Hname)) in Hf. congruence.
Qed.

Section Cleanup.

Variable unlink_error : Store -> string -> option string.
Hypothesis unlink_succeeds : forall d name, unlink_error d name = None.

Lemma unlink_files_result (d : Store) (entries : list DirEntry) :
  forall (fs : Files) (n : Z),
    snd (unlink_files unlink_error d entries fs n) = inr (n + count_files entries)
    /\ forall d',
         fst (unlink_files unlink_error d entries fs n) d'
           = if Store_eqb d d'
             then filter (fun e => negb (mem_string (entry_name e)
                                           (map entry_name (filter entry_is_file entries))))
                    (fs d')
             else fs d'.
Proof.
  induction entries as [| e rest IH]; intros fs n.
  - simpl. split; [f_equal; unfold count_files; simpl; lia|].
    intros d'. destruct (Store_eqb d d'); [| reflexivity].
    symmetry. apply filter_all.
  - simpl. destruct (entry_is_file e) eqn:Hf.
    + rewrite unlink_succeeds.
      destruct (IH (unlink fs d (entry_name e)) (n + 1)) as [Hc Hfs].
      split.
      * rewrite Hc. f_equal. unfold count_files. cbn [filter]. rewrite Hf.
        cbn [List.length]. rewrite Nat2Z.inj_succ. lia.
      * intros d'. rewrite Hfs. unfold unlink.
        destruct (Store_eqb d d'); [| reflexivity].
        rewrite filter_twice. apply filter_ext. intros a. simpl.
        rewrite negb_orb. reflexivity.
    + destruct (IH fs n) as [Hc Hfs]. split.
      * rewrite Hc. f_equal. unfold count_files. cbn [filter]. rewrite Hf. reflexivity.
      * assumption.
Qed.

Lemma cleanup_loop_files (directories : list string) :
  forall (fs : Files) (cleaned : list (string * Z)),
    well_formed fs ->
    (exists cleaned', snd (cleanup_loop unlink_error directories fs cleaned) = inr cleaned')
    /\ forall d,
         fst (cleanup_loop unlink_error directories fs cleaned) d
           = if requested directories d then filter not_a_file (fs d) else fs d.
Proof.
  induction directories as [| name rest IH]; intros fs cleaned Hwf.
  - simpl. split; [exists cleaned; reflexivity | reflexivity].
  - simpl. destruct (directory_map name) as [dir |] eqn:Hmap.
    + destruct (unlink_files_result dir (fs dir) fs 0) as [Hc Hfs].
      destruct (unlink_files unlink_error dir (fs dir) fs 0) as [fs1 [err | k]] eqn:Hrun;
        simpl in Hc, Hfs; [discriminate|].
      assert (Hfs1 : forall d, fs1 d = if Store_eqb dir d then filter not_a_file (fs d) else fs d).
      { intros d. rewrite Hfs. destruct (Store_eqb dir d) eqn:E; [| reflexivity].
        apply Store_eqb_eq in E. subst d. apply drop_file_names, Hwf. }
      assert (Hwf1 : well_formed fs1).
      { intros d. rewrite Hfs1. destruct (Store_eqb dir d); [| apply Hwf].
        apply NoDup_names_filter, Hwf. }
      destruct (IH fs1 (dict_set name k cleaned) Hwf1) as [Hok Hres].
      split; [assumption|].
      intros d. rewrite Hres, Hfs1.
      destruct (Store_eqb dir d); simpl; [| reflexivity].
      destruct (requested rest d); [| reflexivity].
      rewrite filter_twice. apply filter_ext. intros a. apply andb_diag.
    + apply IH. assumption.
Qed.

Lemma cleanup_files_after (request : option (list string)) (fs : Files) :
  well_formed fs ->
  (exists cleaned message,
     snd (cleanup unlink_error request fs) = CleanupSuccess cleaned message)
  /\ forall d,
       fst (cleanup unlink_error request fs) d
         = if requested (directories_of request) d
           then filter not_a_file (fs d) else fs d.
Proof.
  intros Hwf. unfold cleanup.
  destruct (cleanup_loop_files (directories_of request) fs [] Hwf) as [[cleaned' Hok] Hres].
  destruct (cleanup_loop unlink_error (directories_of request) fs [])
    as [fs' [err | cleaned]]; simpl in Hok, Hres; [discriminate|].
  split; [eexists; eexists; reflexivity | assumption].
Qed.

(** X20: when no [unlink] fails, [cleanup] answers with success, and
    afterwards every directory named in the request holds none of its
    regular files while its other entries (sub-directories) are all still
    there; a directory that is not named is left exactly as it was, and a
    name that is not one of the four known names has no effect. *)
Theorem cleanup_removes_requested_files :
  forall (request : option (list string)) (fs : Files),
    well_formed fs ->
    (exists cleaned message,
       snd (cleanup unlink_error request fs) = CleanupSuccess cleaned message)
    /\ forall d,
         fst (cleanup unlink_error request fs) d
           = if requested (directories_of request) d
             then filter not_a_file (fs d) else fs d.
Proof. intros request fs Hwf. apply cleanup_files_after. assumption. Qed.

Lemma dict_set_new (k : string) (v : Z) (d : list (string * Z)) :
  ~ In k (map fst d) -> dict_set k v d = (d ++ [(k, v)])%list.
Proof.
  induction d as [| [k' v'] d IH]; simpl; intros Hnot; [reflexivity|].
  destruct (String.eqb_spec k k') as [-> | Hne]; [exfalso; apply Hnot; left; reflexivity|].
  rewrite IH; [reflexivity|]. intros H. apply Hnot. right. assumption.
Qed.

Lemma directory_map_some (a : string) (d : Store) :
  directory_map a = Some d ->
  a = match d with
      | ClipsDir => "clips"
      | SubtitledDir => "subtitled"
      | DesignedDir => "designed"
      | VideosDir => "videos"
      end.
Proof.
  unfold directory_map.
  destruct (String.eqb_spec a "clips") as [-> |];
    [intros H; injection H as <-; reflexivity|].
  destruct (String.eqb_spec a "subtitled") as [-> |];
    [intros H; injection H as <-; reflexivity|].
  destruct (String.eqb_spec a "designed") as [-> |];
    [intros H; injection H as <-; reflexivity|].
  destruct (String.eqb_spec a "videos") as [-> |];
    [intros H; injection H as <-; reflexivity | discriminate].
Qed.

Lemma directory_map_inj (a b : string) (d : Store) :
  directory_map a = Some d -> directory_map b = Some d -> a = b.
Proof.
  intros Ha Hb. rewrite (directory_map_some a d Ha), (directory_map_some b d Hb). reflexivity.
Qed.

Lemma cleanup_report_ext (fs fs' : Files) (directories : list string) :
  (forall name d, In name directories -> directory_map name = Some d -> fs' d = fs d) ->
  cleanup_report fs' directories = cleanup_report fs directories.
Proof.
  unfold cleanup_report. induction directories as [| name rest IH]; intros H; [reflexivity|].
  simpl. rewrite IH by (intros n d Hn; apply H; right; assumption).
  destruct (directory_map name) as [d |] eqn:Hmap; [| reflexivity].
  rewrite (H name d (or_introl eq_refl) Hmap). reflexivity.
Qed.

Lemma cleanup_loop_report (directories : list string) :
  forall (fs : Files) (cleaned : list (string * Z)),
    NoDup directories ->
    (forall k, In k directories -> ~ In k (map fst cleaned)) ->
    snd (cleanup_loop unlink_error directories fs cleaned)
      = inr (cleaned ++ cleanup_report fs directories)%list.
Proof.
  induction directories as [| name rest IH]; intros fs cleaned Hnd Hfresh.
  - simpl. rewrite app_nil_r. reflexivity.
  - inversion Hnd as [| x xs Hnot Hnd']; subst.
    unfold cleanup_report. simpl. fold (cleanup_report fs rest).
    destruct (directory_map name) as [dir |] eqn:Hmap.
    + destruct (unlink_files_result dir (fs dir) fs 0) as [Hc Hfs].
      destruct (unlink_files unlink_error dir (fs dir) fs 0) as [fs1 [err | k]] eqn:Hrun;
        simpl in Hc, Hfs; [discriminate|].
      injection Hc as ->.
      rewrite dict_set_new by (apply Hfresh; left; reflexivity).
      rewrite IH; [| assumption |].
      * rewrite <- app_assoc. simpl. do 3 f_equal.
        apply cleanup_report_ext. intros n d Hn Hd. rewrite Hfs.
        destruct (Store_eqb dir d) eqn:E; [| reflexivity].
        apply Store_eqb_eq in E. subst d. exfalso. apply Hnot.
        rewrite (directory_map_inj name n dir Hmap Hd). assumption.
      * intros k Hk Hin. rewrite map_app in Hin. apply in_app_or in Hin.
        destruct Hin as [Hin | [<- | []]].
        -- apply (Hfresh k (or_intror Hk) Hin).
        -- apply Hnot. assumption.
    + apply IH; [assumption|]. intros k Hk. apply Hfresh. right. assumption.
Qed.

Lemma cleanup_report_exact (request : option (list string)) (fs : Files) :
  NoDup (directories_of request) ->
  snd (cleanup unlink_error request fs)
    = CleanupSuccess (cleanup_report fs (directories_of request))
        ("Cleaned "
           ++ str_of_int (dict_sum (cleanup_report fs (directories_of request)))
           ++ " files").
Proof.
  intros Hnd. unfold cleanup.
  pose proof (cleanup_loop_report (directories_of request) fs [] Hnd (fun _ _ H => H)) as Hrep.
  destruct (cleanup_loop unlink_error (directories_of request) fs [])
    as [fs' [err | cleaned]]; simpl in Hrep; [discriminate|].
  injection Hrep as ->. reflexivity.
Qed.


Lemma requested_fresh (name : string) (rest : list string) (d : Store) :
  ~ In name rest -> directory_map name = Some d -> requested rest d = false.
Proof.
  intros Hnot Hmap. destruct (requested rest d) eqn:E; [| reflexivity].
  exfalso. unfold requested in E. apply existsb_exists in E.
  destruct E as (n & Hn & E). destruct (directory_map n) as [d' |] eqn:Hd; [| discriminate].
  apply Store_eqb_eq in E. subst d'. apply Hnot.
  rewrite (directory_map_inj name n d Hmap Hd). assumption.
Qed.

Lemma requested_cons (name : string) (rest : list string) (d : Store) :
  requested (name :: rest) d
    = (match directory_map name with
       | Some d' => Store_eqb d' d
       | None => false
       end || requested rest d)%bool.
Proof. reflexivity. Qed.

Lemma dict_sum_report (fs : Files) (directories : list string) :
  NoDup directories ->
  dict_sum (cleanup_report fs directories) = requested_files fs directories.
Proof.
  induction directories as [| name rest IH]; intros Hnd; [reflexivity|].
  inversion Hnd as [| x xs Hnot Hnd']; subst.
  assert (E : dict_sum (cleanup_report fs (name :: rest))
              = match directory_map name with
                | Some d => count_files (fs d)
                | None => 0
                end + dict_sum (cleanup_report fs rest)).
  { unfold cleanup_report, dict_sum. cbn [flat_map].
    destruct (directory_map name); reflexivity. }
  rewrite E, (IH Hnd'). unfold requested_files. rewrite !requested_cons.
  destruct (directory_map name) as [d0 |] eqn:Hmap; [| reflexivity].
  pose proof (requested_fresh name rest d0 Hnot Hmap) as Hfresh.
  destruct d0; cbn [Store_eqb orb]; rewrite Hfresh;
    repeat match goal with
           | |- context [if ?b then _ else _] => destruct b
           end; lia.
Qed.

Lemma length_split (l : list DirEntry) :
  Z.of_nat (List.length l) = Z.of_nat (List.length (filter not_a_file l)) + count_files l.
Proof.
  unfold count_files, not_a_file. induction l as [| e l IH]; [reflexivity|].
  cbn [filter List.length]. destruct (entry_is_file e); cbn [negb List.length];
    rewrite !Nat2Z.inj_succ; lia.
Qed.

(** X22: when no [unlink] fails and no directory name is listed twice, the
    number in the message is exactly the number of entries that left the
    four directories. *)
Theorem cleanup_message_counts_removed_entries :
  forall (request : option (list string)) (fs : Files),
    well_formed fs ->
    NoDup (directories_of request) ->
    exists cleaned,
      snd (cleanup unlink_error request fs)
        = CleanupSuccess cleaned ("Cleaned " ++ str_of_int (dict_sum cleaned) ++ " files")
      /\ dict_sum cleaned
           = total_entries fs - total_entries (fst (cleanup unlink_error request fs)).
Proof.
  intros request fs Hwf Hnd.
  exists (cleanup_report fs (directories_of request)).
  split; [apply cleanup_report_exact; assumption|].
  destruct (cleanup_files_after request fs Hwf) as [_ Hfs].
  rewrite dict_sum_report by assumption.
  unfold total_entries, requested_files. rewrite !Hfs.
  pose proof (length_split (fs ClipsDir)). pose proof (length_split (fs SubtitledDir)).
  pose proof (length_split (fs DesignedDir)). pose proof (length_split (fs VideosDir)).
  destruct (requested (directories_of request) ClipsDir),
    (requested (directories_of request) SubtitledDir),
    (requested (directories_of request) DesignedDir),
    (requested (directories_of request) VideosDir); lia.
Qed.

End Cleanup.

Lemma cleanup_removes_requested_files_witness :
  (exists cleaned message,
     snd (cleanup (fun _ _ => None) (Some ["clips"; "nonsense"; "videos"]) sample_files)
       = CleanupSuccess cleaned message)
  /\ forall d,
       fst (cleanup (fun _ _ => None) (Some ["clips"; "nonsense"; "videos"]) sample_files) d
         = if requested (directories_of (Some ["clips"; "nonsense"; "videos"])) d
           then filter not_a_file (sample_files d) else sample_files d.
Proof.
  apply (cleanup_removes_requested_files (fun _ _ => None)).
  - reflexivity.
  - intros d. destruct d; simpl; repeat constructor; simpl; intuition discriminate.
Defined.


Lemma cleanup_message_counts_removed_entries_witness :
  exists cleaned,
    snd (cleanup (fun _ _ => None) None sample_files)
      = CleanupSuccess cleaned ("Cleaned " ++ str_of_int (dict_sum cleaned) ++ " files")
    /\ dict_sum cleaned
         = total_entries sample_files
           - total_entries (fst (cleanup (fun _ _ => None) None sample_files)).
Proof.
  apply (cleanup_message_counts_removed_entries (fun _ _ => None)).
  - reflexivity.
  - intros d. destruct d; simpl; repeat constructor; simpl; intuition discriminate.
  - repeat constructor; simpl; intuition discriminate.
Defined.

(** ** Destinations *)

Lemma prefix_length (p u : string) :
  prefix p u = true -> (String.length p <= String.length u)%nat.
Proof.
  revert u. induction p as [| a p IH]; intros u H; simpl; [lia|].
  destruct u as [| b u]; simpl in H; [discriminate|].
  destruct (ascii_dec a b); [| discriminate]. simpl. apply IH in H. lia.
Qed.

Lemma prefix_empty (s : string) : prefix "" s = true.
Proof. destruct s; reflexivity. Qed.

Lemma prefix_app_long (p u v : string) :
  (String.length p <= String.length u)%nat -> prefix p (u ++ v) = prefix p u.
Proof.
  revert u. induction p as [| a p IH]; intros u H; [rewrite !prefix_empty; reflexivity|].
  destruct u as [| b u]; simpl in H; [lia|].
  simpl. destruct (ascii_dec a b); [apply IH; lia | reflexivity].
Qed.

Ltac short_case :=
  cbn [prefix append];
  repeat match goal with
         | |- context [ascii_dec ?a ?b] => destruct (ascii_dec a b)
         end;
  first [reflexivity | congruence].

(** The suffix ["_subtitled"] does not end with a beginning of itself, so
    no occurrence can start inside a stem and end inside an appended
    ["_subtitled"]. *)
Lemma no_straddling_match (u : string) :
  u <> "" -> prefix "_subtitled" (u ++ "_subtitled") = prefix "_subtitled" u.
Proof.
  intros Hne.
  destruct (Nat.le_gt_cases 10 (String.length u)) as [Hlong | Hshort].
  - apply prefix_app_long. assumption.
  - assert (Hfalse : prefix "_subtitled" u = false).
    { destruct (prefix "_subtitled" u) eqn:E; [| reflexivity].
      apply prefix_length in E. simpl in E. lia. }
    rewrite Hfalse.
    destruct u as [| c1 u]; [contradiction|].
    destruct u as [| c2 u];
      [short_case|].
    destruct u as [| c3 u];
      [short_case|].
    destruct u as [| c4 u];
      [short_case|].
    destruct u as [| c5 u];
      [short_case|].
    destruct u as [| c6 u];
      [short_case|].
    destruct u as [| c7 u];
      [short_case|].
    destruct u as [| c8 u];
      [short_case|].
    destruct u as [| c9 u];
      [short_case|].
    destruct u as [| c10 u];
      [short_case|].
    simpl in Hshort. lia.
Qed.

Lemma strip_appended_suffix (s : string) :
  forall k : nat,
    (k <= String.length s)%nat ->
    replace_from "_subtitled" "" k (s ++ "_subtitled") = replace_from "_subtitled" "" k s.
Proof.
  induction s as [| c s IH]; intros k Hk.
  - simpl in Hk. assert (k = 0%nat) by lia. subst k. reflexivity.
  - destruct k as [| k].
    + change (replace_from "_subtitled" "" 0 (String c s ++ "_subtitled"))
        with (if prefix "_subtitled" (String c s ++ "_subtitled")
              then "" ++ replace_from "_subtitled" "" 9 (s ++ "_subtitled")
              else String c (replace_from "_subtitled" "" 0 (s ++ "_subtitled"))).
      change (replace_from "_subtitled" "" 0 (String c s))
        with (if prefix "_subtitled" (String c s)
              then "" ++ replace_from "_subtitled" "" 9 s
              else String c (replace_from "_subtitled" "" 0 s)).
      rewrite no_straddling_match by discriminate.
      destruct (prefix "_subtitled" (String c s)) eqn:E.
      * apply prefix_length in E. simpl in E. rewrite IH by lia. reflexivity.
      * rewrite IH by lia. reflexivity.
    + simpl. apply IH. simpl in Hk. lia.
Qed.

(** X23: a clip and its subtitled version have the same destination: for
    every stem, the clips [stem.mp4] and [stem_subtitled.mp4] of a
    directory are both rendered to [stem_vertical.mp4] (with the stem's own
    occurrences of ["_subtitled"] removed), so in one batch the later one
    overwrites the earlier one. *)
Theorem destination_ignores_subtitled_suffix :
  forall (args : Args) (dir stem : string),
    destination args {| clip_dir := dir; clip_stem := stem ++ "_subtitled" |}
      = destination args {| clip_dir := dir; clip_stem := stem |}.
Proof.
  intros args dir stem. unfold destination, replace. simpl clip_stem.
  rewrite strip_appended_suffix by lia. reflexivity.
Qed.
